(** * Club-Website server: database bootstrap and OIDC authentication guard

    A shallow embedding of [server/db.ts] (the connection bootstrap with its
    [pingDb] probe, followed by the OIDC bootstrap with [setupAuth] and the
    [isAuthenticated] guard), and the properties of that code.

    Conventions of the embedding.
    - An [async] function is a computation in a state-and-exception monad:
      awaiting a rejected promise is a [Throw], which [try]/[catch] and
      [try]/[finally] handle as in JavaScript.
    - Collaborators that live outside the file (the Postgres pool, the
      openid-client library, passport, the session store, the URL parser,
      the system clock) are fields of the state: what they answer is data
      of the state, and each call to them is appended to a trace, so "is
      called", "is not called" and "is called once" are statements about
      the trace.
    - Strings are sequences of code units below 256. *)

From Stdlib Require Import ZArith String Ascii List Bool Lia.
From stdpp Require Import base option list gmap strings.

Local Open Scope string_scope.
Local Open Scope Z_scope.
Local Open Scope list_scope.

(* ===================================================================== *)
(** ** JavaScript values and control flow                                 *)
(* ===================================================================== *)

Module Js.

(** How a computation ends: normally, or with a thrown error (the message of
    the [Error], or a tag for an error raised by a collaborator). *)
Inductive result (A : Type) : Type :=
| Ok (a : A)
| Throw (e : string).
Arguments Ok {A} a.
Arguments Throw {A} e.

(** State and exceptions: the state a throwing computation has reached is
    kept, as the effects of a JavaScript function that throws are. *)
Definition M (S A : Type) : Type := S -> result A * S.

Definition ret {S A} (a : A) : M S A := fun s => (Ok a, s).

Definition bind {S A B} (m : M S A) (k : A -> M S B) : M S B :=
  fun s =>
    match m s with
    | (Ok a, s1) => k a s1
    | (Throw e, s1) => (Throw e, s1)
    end.

Definition throw {S A} (e : string) : M S A := fun s => (Throw e, s).

(** [try { m } catch { h }]: the handler does not look at the error. *)
Definition try_catch {S A} (m : M S A) (h : M S A) : M S A :=
  fun s =>
    match m s with
    | (Ok a, s1) => (Ok a, s1)
    | (Throw _, s1) => h s1
    end.

(** [try { m } finally { f }]: [f] runs on both exits of [m]; the outcome is
    that of [m] unless [f] itself throws. *)
Definition try_finally {S A} (m : M S A) (f : M S unit) : M S A :=
  fun s =>
    let '(r, s1) := m s in
    match f s1 with
    | (Ok _, s2) => (r, s2)
    | (Throw e, s2) => (Throw e, s2)
    end.

Definition get {S} : M S S := fun s => (Ok s, s).
Definition modify {S} (f : S -> S) : M S unit := fun s => (Ok tt, f s).

(** The promise an [await] receives: settled with a value or rejected. *)
Definition await {S A} (p : result A) : M S A := fun s => (p, s).

Declare Scope js_scope.
Delimit Scope js_scope with js.
Notation "x <- m ;; k" := (bind m (fun x => k))
  (at level 100, m at next level, right associativity) : js_scope.
Notation "m ;; k" := (bind m (fun _ => k))
  (at level 100, right associativity) : js_scope.

(** [ToBoolean]: what [!x], [!!x] and [filter(Boolean)] test. *)
Class ToBoolean (A : Type) := to_boolean : A -> bool.

#[global] Instance string_to_boolean : ToBoolean string :=
  fun s => match s with EmptyString => false | String _ _ => true end.

(** A number is falsy when it is zero (numbers are integers here). *)
#[global] Instance number_to_boolean : ToBoolean Z :=
  fun n => negb (Z.eqb n 0).

(** [None] is [undefined]. *)
#[global] Instance option_to_boolean {A} `{ToBoolean A} : ToBoolean (option A) :=
  fun o => match o with Some a => to_boolean a | None => false end.

(** [String.prototype.split] with a one-character separator. *)
Fixpoint split (sep : ascii) (s : string) : list string :=
  match s with
  | EmptyString => [EmptyString]
  | String c r =>
      if Ascii.eqb c sep then EmptyString :: split sep r
      else match split sep r with
           | h :: t => String c h :: t
           | [] => [String c EmptyString]
           end
  end.

(** White space and line terminators among the code units below 256:
    TAB, LF, VT, FF, CR, SPACE and NBSP. *)
Definition is_whitespace (c : ascii) : bool :=
  existsb (N.eqb (N_of_ascii c)) [9; 10; 11; 12; 13; 32; 160]%N.

Fixpoint trim_start (s : string) : string :=
  match s with
  | EmptyString => EmptyString
  | String c r => if is_whitespace c then trim_start r else s
  end.

Fixpoint trim_end (s : string) : string :=
  match s with
  | EmptyString => EmptyString
  | String c r =>
      match trim_end r with
      | EmptyString => if is_whitespace c then EmptyString else String c EmptyString
      | r' => String c r'
      end
  end.

(** [String.prototype.trim]. *)
Definition trim (s : string) : string := trim_end (trim_start s).

(** A string with a character that is not white space. *)
Definition nonblank (s : string) : bool :=
  existsb (fun c => negb (is_whitespace c)) (list_ascii_of_string s).

End Js.

Import Js.
Local Open Scope js_scope.

(* ===================================================================== *)
(** ** The connection provider                                            *)
(* ===================================================================== *)

Module Db.

(** [process.env]. *)
Abbreviation Env := (gmap string string).

Record PoolConfig := {
  connectionString : option string;
  ssl_rejectUnauthorized : bool;
}.

(** What loading the module has built so far. *)
Inductive load_event :=
| NewPool (cfg : PoolConfig)
| Drizzle (cfg : PoolConfig).

(** The module's exports: the pool and the query handle made from it. *)
Record Exports := {
  pool : PoolConfig;
  db : PoolConfig;
}.

Definition new_Pool (cfg : PoolConfig) : M (list load_event) PoolConfig :=
  modify (fun t => t ++ [NewPool cfg]) ;; ret cfg.

Definition drizzle (p : PoolConfig) : M (list load_event) PoolConfig :=
  modify (fun t => t ++ [Drizzle p]) ;; ret p.

(** The top-level statements of the module, run once when it is loaded. *)
Definition load (env : Env) : M (list load_event) Exports :=
  let connectionString := env !! "DATABASE_URL" in
  if negb (to_boolean connectionString) then throw "DATABASE_URL is not set"
  else
    pool <- new_Pool {| connectionString := connectionString;
                        ssl_rejectUnauthorized := false |} ;;
    db <- drizzle pool ;;
    ret {| pool := pool; db := db |}.

(** *** The pool at run time *)

Abbreviation Client := nat.

Inductive pool_event :=
| Connect (c : Client)
| ConnectFailed
| Query (c : Client) (sql : string)
| Release (c : Client).

(** The pool and the server behind it.  [acquire] and [server] are what the
    server answers to an acquisition and to a query; [checked_out] are the
    clients handed out and not yet released. *)
Record Pool := {
  acquire : result unit;
  server : string -> result unit;
  next_client : Client;
  checked_out : list Client;
  log : list pool_event;
}.

Definition emit (e : pool_event) (p : Pool) : Pool :=
  {| acquire := acquire p; server := server p; next_client := next_client p;
     checked_out := checked_out p; log := log p ++ [e] |}.

Definition hand_out (p : Pool) : Pool :=
  {| acquire := acquire p; server := server p;
     next_client := S (next_client p);
     checked_out := next_client p :: checked_out p; log := log p |}.

Fixpoint remove_first (c : Client) (l : list Client) : list Client :=
  match l with
  | [] => []
  | x :: r => if Nat.eqb x c then r else x :: remove_first c r
  end.

Definition take_back (c : Client) (p : Pool) : Pool :=
  {| acquire := acquire p; server := server p; next_client := next_client p;
     checked_out := remove_first c (checked_out p); log := log p |}.

(** [pool.connect()] *)
Definition pool_connect : M Pool Client :=
  p <- get ;;
  match acquire p with
  | Ok _ =>
      modify hand_out ;; modify (emit (Connect (next_client p))) ;;
      ret (next_client p)
  | Throw e => modify (emit ConnectFailed) ;; throw e
  end.

(** [client.query(sql)] *)
Definition client_query (c : Client) (sql : string) : M Pool unit :=
  modify (emit (Query c sql)) ;;
  p <- get ;;
  await (server p sql).

(** [client.release()]: releasing a client that is not checked out throws. *)
Definition client_release (c : Client) : M Pool unit :=
  p <- get ;;
  if existsb (Nat.eqb c) (checked_out p) then
    modify (take_back c) ;; modify (emit (Release c))
  else
    throw "Release called on client which has already been released to the pool.".

Definition pingDb : M Pool bool :=
  client <- pool_connect ;;
  try_finally
    (client_query client "select 1" ;; ret true)
    (client_release client).

(** How often client [c] is released in a log. *)
Definition releases (c : Client) (l : list pool_event) : nat :=
  List.length
    (List.filter
       (fun e => match e with Release c' => Nat.eqb c' c | _ => false end) l).

End Db.

(* ===================================================================== *)
(** ** The OIDC bootstrap and the guard                                   *)
(* ===================================================================== *)

Module Auth.

Abbreviation Env := (gmap string string).

(** *** Data *)

(** The claims of an ID token: the subject and the expiry, in seconds. *)
Record Claims := {
  sub : string;
  exp : option Z;
}.

(** What the token endpoint answers: [tokens.claims()] is [undefined] when
    the answer carries no ID token, [tokens.refresh_token] when the provider
    issues no new refresh token. *)
Record TokenResponse := {
  tokens_claims : option Claims;
  tokens_access_token : string;
  tokens_refresh_token : option string;
}.

(** The user object of a session; [{}] has every field [undefined]. *)
Record User := {
  claims : option Claims;
  access_token : option string;
  refresh_token : option string;
  expires_at : option Z;
}.

Definition empty_user : User :=
  {| claims := None; access_token := None; refresh_token := None;
     expires_at := None |}.

(** Objects live in a heap: [req.user] and the user stored in the session
    are one object, so a write through one is seen through the other. *)
Abbreviation loc := nat.

Record Request := {
  req_user : option loc;
  hostname : string;
  protocol : string;
}.

Record OidcConfig := {
  issuer : string;
  client_id : option string;
}.

Record Strategy := {
  name : string;
  scope : string;
  callbackURL : string;
}.

Inductive event :=
| ConsoleWarn
| DateNow
| Discovery (issuer : string) (client_id : option string)
| RefreshTokenGrant (config : OidcConfig) (refreshToken : option string)
| BuildEndSessionUrl (config : OidcConfig)
| PassportAuthenticate (strategy : string) (callback : bool)
| ReqLogout
| Next
| StatusJson (status : Z) (message : string)
| Redirect (url : string)
| NotFound
| ServerError (err : string)   (* the 500 of Express's default error handler *)
| Uncaught (err : string).     (* an exception thrown outside every handler *)


(** The calls of the guard that go over the network. *)
Definition is_network_call (e : event) : bool :=
  match e with
  | Discovery _ _ | RefreshTokenGrant _ _ => true
  | _ => false
  end.

Definition is_refresh (e : event) : bool :=
  match e with RefreshTokenGrant _ _ => true | _ => false end.

Definition is_next (e : event) : bool :=
  match e with Next => true | _ => false end.

(** The openid-client library and the provider behind it: what a call
    settles to. *)
Record OidcClient := {
  discovery : string -> option string -> result OidcConfig;
  refreshTokenGrant : OidcConfig -> option string -> result TokenResponse;
  buildEndSessionUrl : OidcConfig -> option string -> string -> result string;
}.

Record World := {
  process_env : Env;
  clock : Z;                                  (* what [Date.now()] returns *)
  heap : gmap loc User;
  oidc_cache : option (Z * result OidcConfig); (* the memoized promise *)
  client : OidcClient;
  strategies : list Strategy;                 (* registered with passport *)
  trace : list event;
  url_parses : string -> bool;                (* whether [new URL(s)] succeeds *)
  session_store : Request -> result (option loc);
    (* what the session of a request holds: the store's error, or the
       passport user of the session, if the request has a session with one *)
}.

Definition emit (e : event) (w : World) : World :=
  {| process_env := process_env w; clock := clock w; heap := heap w;
     oidc_cache := oidc_cache w; client := client w;
     strategies := strategies w; trace := trace w ++ [e];
     url_parses := url_parses w; session_store := session_store w |}.

Definition set_heap (h : gmap loc User) (w : World) : World :=
  {| process_env := process_env w; clock := clock w; heap := h;
     oidc_cache := oidc_cache w; client := client w;
     strategies := strategies w; trace := trace w;
     url_parses := url_parses w; session_store := session_store w |}.

Definition set_oidc_cache (c : option (Z * result OidcConfig)) (w : World) : World :=
  {| process_env := process_env w; clock := clock w; heap := heap w;
     oidc_cache := c; client := client w;
     strategies := strategies w; trace := trace w;
     url_parses := url_parses w; session_store := session_store w |}.

Definition passport_use (s : Strategy) (w : World) : World :=
  {| process_env := process_env w; clock := clock w; heap := heap w;
     oidc_cache := oidc_cache w; client := client w;
     strategies := strategies w ++ [s]; trace := trace w;
     url_parses := url_parses w; session_store := session_store w |}.

(** The events a computation appends to the trace when run from [w]. *)
Definition events_of {A} (m : M World A) (w : World) : list event :=
  List.skipn (List.length (trace w)) (trace (snd (m w))).

Definition count_events (p : event -> bool) (l : list event) : nat :=
  List.length (List.filter p l).

(** The rejection of the guard: [res.status(401).json(...)]. *)
Definition unauthorized : event := StatusJson 401 "Unauthorized".

(** The paths of the three authentication endpoints. *)
Definition auth_paths : list string :=
  ["/api/login"; "/api/callback"; "/api/logout"].

(** *** Module-level constants *)

Record Globals := {
  rawDomains : string;
  allowedDomains : list string;
  AUTH_ENABLED : bool;
}.

(** [a ?? b] *)
Definition nullish {A} (a b : option A) : option A :=
  match a with Some _ => a | None => b end.

(** The top-level statements: they run once, when the module is loaded. *)
Definition load : M World Globals :=
  w <- get ;;
  let env := process_env w in
  let rawDomains :=
    default "" (nullish (env !! "ALLOWED_ORIGINS") (env !! "REPLIT_DOMAINS")) in
  let allowedDomains :=
    List.filter to_boolean (List.map trim (split "," rawDomains)) in
  let AUTH_ENABLED :=
    (0 <? Z.of_nat (List.length allowedDomains)) && to_boolean (env !! "REPL_ID") in
  (if negb AUTH_ENABLED then modify (emit ConsoleWarn) else ret tt) ;;
  ret {| rawDomains := rawDomains; allowedDomains := allowedDomains;
         AUTH_ENABLED := AUTH_ENABLED |}.

(** *** OIDC discovery, memoized for an hour *)

Definition maxAge : Z := 3600 * 1000.

(** [new URL(process.env.ISSUER_URL ?? "https://replit.com/oidc")] *)
Definition issuer_url (env : Env) : string :=
  default "https://replit.com/oidc" (env !! "ISSUER_URL").

(** [new URL(s)]: a [TypeError] when [s] does not parse.  The URL object
    is identified with the string it was parsed from. *)
Definition new_URL (s : string) : M World string :=
  w <- get ;;
  if url_parses w s then ret s else throw "TypeError: Invalid URL".

Definition discover : M World OidcConfig :=
  w <- get ;;
  let env := process_env w in
  server <- new_URL (issuer_url env) ;;
  modify (emit (Discovery server (env !! "REPL_ID"))) ;;
  await (discovery (client w) server (env !! "REPL_ID")).

(** The entry of a [memoize(f, { maxAge })] cache that is still in use:
    the promise [f] returned, settled either way, is kept until [maxAge]
    milliseconds have passed. *)
Definition cached {A} (now : Z) (c : option (Z * result A)) : option (result A) :=
  match c with
  | Some (t, p) => if now <? t + maxAge then Some p else None
  | None => None
  end.

Definition memoize {A} (f : M World A)
    (cache : World -> option (Z * result A))
    (store : option (Z * result A) -> World -> World) : M World A :=
  w <- get ;;
  match cached (clock w) (cache w) with
  | Some p => await p
  | None =>
      fun w0 => let '(p, w1) := f w0 in (p, store (Some (clock w0, p)) w1)
  end.

Definition getOidcConfig : M World OidcConfig :=
  memoize discover oidc_cache set_oidc_cache.

(** *** Helpers *)

Definition updateUserSession (user : User) (tokens : TokenResponse) : User :=
  let user := {| claims := tokens_claims tokens;
                 access_token := access_token user;
                 refresh_token := refresh_token user;
                 expires_at := expires_at user |} in
  let user := {| claims := claims user;
                 access_token := Some (tokens_access_token tokens);
                 refresh_token := refresh_token user;
                 expires_at := expires_at user |} in
  let user := {| claims := claims user;
                 access_token := access_token user;
                 refresh_token := tokens_refresh_token tokens;
                 expires_at := expires_at user |} in
  {| claims := claims user;
     access_token := access_token user;
     refresh_token := refresh_token user;
     expires_at := match claims user with Some c => exp c | None => None end |}.

(** Reading a property of [user]: a [TypeError] when [user] is [undefined]. *)
Definition deref (user : option loc) : M World User :=
  w <- get ;;
  match user with
  | Some l =>
      match heap w !! l with
      | Some u => ret u
      | None => throw "TypeError"
      end
  | None => throw "TypeError"
  end.

(** Running a function that assigns to properties of [user]. *)
Definition mutate (user : option loc) (f : User -> User) : M World unit :=
  u <- deref user ;;
  match user with
  | Some l => modify (fun w => set_heap (<[l := f u]> (heap w)) w)
  | None => throw "TypeError"
  end.

(** passport's [req.isAuthenticated()]: [req.user] is set. *)
Definition req_isAuthenticated (req : Request) : bool :=
  match req_user req with Some _ => true | None => false end.

Definition next : M World unit := modify (emit Next).

(** [res.status(status).json({ message })] *)
Definition status_json (status : Z) (message : string) : M World unit :=
  modify (emit (StatusJson status message)).

(** [Date.now()] *)
Definition Date_now : M World Z :=
  modify (emit DateNow) ;; w <- get ;; ret (clock w).

(** [now <= e] for a number [now]: false against [undefined]. *)
Definition number_le (now : Z) (e : option Z) : bool :=
  match e with Some e => now <=? e | None => false end.

(** *** The guard for protected routes *)

Definition isAuthenticated (m : Globals) (req : Request) : M World unit :=
  if negb (AUTH_ENABLED m) then next
  else
    let user := req_user req in
    reject <-
      (if negb (req_isAuthenticated req) then ret true
       else u <- deref user ;; ret (negb (to_boolean (expires_at u)))) ;;
    if (reject : bool) then status_json 401 "Unauthorized"
    else
      ms <- Date_now ;;
      let now := ms / 1000 in
      u <- deref user ;;
      if number_le now (expires_at u) then next
      else
        let refreshToken := refresh_token u in
        if negb (to_boolean refreshToken) then status_json 401 "Unauthorized"
        else
          try_catch
            (config <- getOidcConfig ;;
             w <- get ;;
             modify (emit (RefreshTokenGrant config refreshToken)) ;;
             tokenResponse <- await (refreshTokenGrant (client w) config refreshToken) ;;
             mutate user (fun u => updateUserSession u tokenResponse) ;;
             next)
            (status_json 401 "Unauthorized").

(** *** The session middleware *)

Record Cookie := {
  httpOnly : bool;
  secure : bool;
  cookie_maxAge : Z;
}.

Record SessionOptions := {
  secret : option string;
  conString : option string;
  createTableIfMissing : bool;
  ttl : Z;
  tableName : string;
  resave : bool;
  saveUninitialized : bool;
  cookie : Cookie;
}.

Definition getSession : M World SessionOptions :=
  w <- get ;;
  let env := process_env w in
  let sessionTtl := 7 * 24 * 60 * 60 * 1000 in
  ret {| secret := env !! "SESSION_SECRET";
         conString := env !! "DATABASE_URL";
         createTableIfMissing := false;
         ttl := sessionTtl;
         tableName := "sessions";
         resave := false;
         saveUninitialized := false;
         cookie := {| httpOnly := true;
                      secure := bool_decide (env !! "NODE_ENV" = Some "production");
                      cookie_maxAge := sessionTtl |} |}.

(** *** The application the routes are attached to *)

Inductive Middleware :=
| Session (options : SessionOptions)
| PassportInitialize
| PassportSession.

Record Route := {
  path : string;
  handler : Request -> M World unit;
}.

(** An Express application: its settings, its middleware and its [GET]
    routes, each in the order of registration. *)
Record App := {
  settings : list (string * Z);
  middleware : list Middleware;
  routes : list Route;
}.

Definition app_set (k : string) (v : Z) (app : App) : App :=
  {| settings := settings app ++ [(k, v)]; middleware := middleware app;
     routes := routes app |}.

Definition app_use (mw : Middleware) (app : App) : App :=
  {| settings := settings app; middleware := middleware app ++ [mw];
     routes := routes app |}.

Definition app_get (p : string) (h : Request -> M World unit) (app : App) : App :=
  {| settings := settings app; middleware := middleware app;
     routes := routes app ++ [{| path := p; handler := h |}] |}.

(** A request on its way through the middleware: [req.session] is absent
    until the session middleware has run, and then holds the passport user
    of the session, if any. *)
Record Exchange := {
  ex_req : Request;
  ex_session : option (option loc);
}.

Definition with_user (l : loc) (req : Request) : Request :=
  {| req_user := Some l; hostname := hostname req; protocol := protocol req |}.

(** [next(err)] with no error handler installed: Express answers 500 and
    the request goes no further. *)
Definition next_error (err : string) : M World (option Exchange) :=
  modify (emit (ServerError err)) ;; ret None.

(** One middleware: it passes the request on ([Some]) or ends it.
    - express-session leaves a request that has a session alone, refuses to
      work without a secret, and otherwise loads the session, passing on
      the error of the store.
    - [passport.initialize()] passes the request on.
    - [passport.session()] needs a session, and sets [req.user] to the
      user the session holds. *)
Definition run_middleware (mw : Middleware) (x : Exchange)
  : M World (option Exchange) :=
  match mw with
  | Session options =>
      match ex_session x with
      | Some _ => ret (Some x)
      | None =>
          if negb (to_boolean (secret options)) then
            next_error "secret option required for sessions"
          else
            w <- get ;;
            match session_store w (ex_req x) with
            | Ok su => ret (Some {| ex_req := ex_req x; ex_session := Some su |})
            | Throw err => next_error err
            end
      end
  | PassportInitialize => ret (Some x)
  | PassportSession =>
      match ex_session x with
      | None =>
          next_error
            "Login sessions require session support. Did you forget to use `express-session` middleware?"
      | Some None => ret (Some x)
      | Some (Some l) =>
          ret (Some {| ex_req := with_user l (ex_req x);
                       ex_session := ex_session x |})
      end
  end.

Fixpoint run_middlewares (mws : list Middleware) (x : Exchange)
  : M World (option Exchange) :=
  match mws with
  | [] => ret (Some x)
  | mw :: rest =>
      y <- run_middleware mw x ;;
      match y with
      | Some x' => run_middlewares rest x'
      | None => ret None
      end
  end.

(** A [GET] request goes through the middleware of the application and is
    then answered by the first route registered for its path. *)
Definition serve_get (app : App) (p : string) (req : Request) : M World unit :=
  y <- run_middlewares (middleware app) {| ex_req := req; ex_session := None |} ;;
  match y with
  | None => ret tt
  | Some x =>
      match List.find (fun r => String.eqb (path r) p) (routes app) with
      | Some r => handler r (ex_req x)
      | None => modify (emit NotFound)
      end
  end.

(** [for (const x of xs) body(x)] *)
Fixpoint for_of {A} (xs : list A) (body : A -> M World unit) : M World unit :=
  match xs with
  | [] => ret tt
  | x :: r => body x ;; for_of r body
  end.

(** *** Main wiring *)

Definition not_configured : string :=
  "Login is not configured on this deployment.".

(** The strategies are registered with their name, scope and callback URL;
    [new Strategy] parses the callback URL and throws when it is invalid.
    The [verify] callback the strategies share runs inside passport, during
    a login, and is left out, as are the identity (de)serializers of the
    user.  The end-session URL of a logout is built in the callback that
    [req.logout] calls once the session is saved, after the handler has
    returned: an error there is thrown outside the handler, and the request
    gets no response. *)
Definition setupAuth (m : Globals) (app : App) : M World App :=
  let app := app_set "trust proxy" 1 app in
  options <- getSession ;;
  let app := app_use (Session options) app in
  let app := app_use PassportInitialize app in
  let app := app_use PassportSession app in
  if negb (AUTH_ENABLED m) then
    let app := app_get "/api/login"
                 (fun _req => status_json 503 not_configured) app in
    let app := app_get "/api/callback"
                 (fun _req => status_json 503 not_configured) app in
    let app := app_get "/api/logout"
                 (fun _req => status_json 200 "Already logged out (auth disabled).") app in
    ret app
  else
    config <- getOidcConfig ;;
    for_of (allowedDomains m) (fun domain =>
      callback <- new_URL (String.append "https://"
                             (String.append domain "/api/callback")) ;;
      modify (passport_use
        {| name := String.append "replitauth:" domain;
           scope := "openid email profile offline_access";
           callbackURL := callback |})) ;;
    let app := app_get "/api/login" (fun req =>
      modify (emit (PassportAuthenticate
                      (String.append "replitauth:" (hostname req)) false))) app in
    let app := app_get "/api/callback" (fun req =>
      modify (emit (PassportAuthenticate
                      (String.append "replitauth:" (hostname req)) true))) app in
    let app := app_get "/api/logout" (fun req =>
      modify (emit ReqLogout) ;;
      w <- get ;;
      modify (emit (BuildEndSessionUrl config)) ;;
      match buildEndSessionUrl (client w) config
              (process_env w !! "REPL_ID")
              (String.append (protocol req)
                 (String.append "://" (hostname req))) with
      | Ok url => modify (emit (Redirect url))
      | Throw err => modify (emit (Uncaught err))
      end) app in
    ret app.

End Auth.

(* ===================================================================== *)
(** ** Concrete environments, providers and sessions                      *)
(* ===================================================================== *)

Module Examples.
Import Auth.

Definition env_enabled : Env :=
  <["ALLOWED_ORIGINS" := "club.example.org, localhost:5173"]>
    (<["REPL_ID" := "club-site"]> (<["DATABASE_URL" := "postgres://db/club"]> ∅)).

Definition env_disabled : Env :=
  <["DATABASE_URL" := "postgres://db/club"]> ∅.

(** The variable is set, to the empty string. *)
Definition env_empty_url : Env := <["DATABASE_URL" := ""]> ∅.

Definition enabled : Globals :=
  {| rawDomains := "club.example.org, localhost:5173";
     allowedDomains := ["club.example.org"; "localhost:5173"];
     AUTH_ENABLED := true |}.

Definition disabled : Globals :=
  {| rawDomains := ""; allowedDomains := []; AUTH_ENABLED := false |}.

Definition config : OidcConfig :=
  {| issuer := "https://replit.com/oidc"; client_id := Some "club-site" |}.

Definition end_session (c : OidcConfig) (id : option string) (back : string)
  : result string :=
  Ok (String.append (issuer c) (String.append "/session/end?to=" back)).

(** A token answer with an ID token that expires at [e]. *)
Definition answer (e : option Z) (rt : option string) : TokenResponse :=
  {| tokens_claims := Some {| sub := "42"; exp := e |};
     tokens_access_token := "at-2";
     tokens_refresh_token := rt |}.

(** A token answer without an ID token. *)
Definition answer_no_id_token : TokenResponse :=
  {| tokens_claims := None;
     tokens_access_token := "at-2";
     tokens_refresh_token := None |}.

(** A provider that answers every refresh with [t]. *)
Definition provider (t : TokenResponse) : OidcClient :=
  {| discovery := fun _ _ => Ok config;
     refreshTokenGrant := fun _ _ => Ok t;
     buildEndSessionUrl := end_session |}.

(** A provider that refuses the refresh token. *)
Definition provider_refusing : OidcClient :=
  {| discovery := fun _ _ => Ok config;
     refreshTokenGrant := fun _ _ => Throw "invalid_grant";
     buildEndSessionUrl := end_session |}.

(** A provider that cannot be reached. *)
Definition provider_down : OidcClient :=
  {| discovery := fun _ _ => Throw "ECONNREFUSED";
     refreshTokenGrant := fun _ _ => Throw "ECONNREFUSED";
     buildEndSessionUrl := end_session |}.

Definition session_user (e : option Z) (rt : option string) : User :=
  {| claims := Some {| sub := "42"; exp := e |};
     access_token := Some "at-1";
     refresh_token := rt;
     expires_at := e |}.

(** 2026-11-01T00:00:00Z in milliseconds, and in seconds. *)
Definition today_ms : Z := 1793491200000.
Definition today : Z := 1793491200.

(** A world at time [ms] whose only object, at location 0, is [u]. *)
Definition world (ms : Z) (u : User) (c : OidcClient) : World :=
  {| process_env := env_enabled; clock := ms; heap := <[0%nat := u]> ∅;
     oidc_cache := None; client := c; strategies := []; trace := [];
     url_parses := fun _ => true;
     session_store := fun _ => Ok (Some 0%nat) |}.

Definition request : Request :=
  {| req_user := Some 0%nat; hostname := "club.example.org"; protocol := "https" |}.

Definition anonymous : Request :=
  {| req_user := None; hostname := "club.example.org"; protocol := "https" |}.

(** A deployment without origins or client identifier, nobody logged in. *)
Definition unconfigured : World :=
  {| process_env := env_disabled; clock := today_ms; heap := ∅;
     oidc_cache := None;
     client := provider_down; strategies := []; trace := [];
     url_parses := fun _ => true; session_store := fun _ => Ok None |}.

Definition express : App :=
  {| settings := []; middleware := []; routes := [] |}.

Definition pool_up (answers : string -> result unit) : Db.Pool :=
  {| Db.acquire := Ok tt; Db.server := answers; Db.next_client := 3;
     Db.checked_out := [1%nat]; Db.log := [] |}.

End Examples.

(* ===================================================================== *)
(** ** Vocabulary for the properties of the bootstrap                     *)
(* ===================================================================== *)

Module Observations.
Import Auth.

(** The same world at another time. *)
Definition at_time (ms : Z) (w : World) : World :=
  {| process_env := process_env w; clock := ms; heap := heap w;
     oidc_cache := oidc_cache w; client := client w;
     strategies := strategies w; trace := trace w;
     url_parses := url_parses w; session_store := session_store w |}.

(** The events by which the guard answers a request. *)
Definition is_response (e : event) : bool :=
  match e with Next | StatusJson _ _ => true | _ => false end.

(** The strategy [setupAuth] builds for a domain. *)
Definition strategy_for (domain : string) : Strategy :=
  {| name := String.append "replitauth:" domain;
     scope := "openid email profile offline_access";
     callbackURL :=
       String.append "https://" (String.append domain "/api/callback") |}.

(** The world after [passport.use] of the strategy of each domain, in order. *)
Definition register (domains : list string) (w : World) : World :=
  List.fold_left (fun w d => passport_use (strategy_for d) w) domains w.

(** [pieces.join(sep)] *)
Definition join (sep : ascii) (pieces : list string) : string :=
  String.concat (String sep EmptyString) pieces.

(** An origin fit to name a strategy: not empty, without a comma, and
    without white space at either end. *)
Record tidy (s : string) : Prop := {
  tidy_nonempty : s <> "";
  tidy_no_comma : ~ In ","%char (list_ascii_of_string s);
  tidy_head : forall c r, s = String c r -> is_whitespace c = false;
  tidy_last : forall c, last (list_ascii_of_string s) = Some c ->
                        is_whitespace c = false;
}.

(** The runs of the guard, one constructor for each way through its body:
    the outcome, the world it ends in and the events it appends. *)
Inductive guard_path (m : Globals) (req : Request) (w : World)
  : result unit -> World -> list event -> Prop :=
| path_disabled :
    AUTH_ENABLED m = false ->
    guard_path m req w (Ok tt) (emit Next w) [Next]
| path_anonymous :
    AUTH_ENABLED m = true -> req_user req = None ->
    guard_path m req w (Ok tt) (emit unauthorized w) [unauthorized]
| path_dangling l :
    AUTH_ENABLED m = true -> req_user req = Some l -> heap w !! l = None ->
    guard_path m req w (Throw "TypeError") w []
| path_no_expiry l u :
    AUTH_ENABLED m = true -> req_user req = Some l -> heap w !! l = Some u ->
    to_boolean (expires_at u) = false ->
    guard_path m req w (Ok tt) (emit unauthorized w) [unauthorized]
| path_valid l u :
    AUTH_ENABLED m = true -> req_user req = Some l -> heap w !! l = Some u ->
    to_boolean (expires_at u) = true ->
    number_le (clock w / 1000) (expires_at u) = true ->
    guard_path m req w (Ok tt) (emit Next (emit DateNow w)) [DateNow; Next]
| path_no_token l u :
    AUTH_ENABLED m = true -> req_user req = Some l -> heap w !! l = Some u ->
    to_boolean (expires_at u) = true ->
    number_le (clock w / 1000) (expires_at u) = false ->
    to_boolean (refresh_token u) = false ->
    guard_path m req w (Ok tt) (emit unauthorized (emit DateNow w))
      [DateNow; unauthorized]
| path_discovery_failed l u err :
    AUTH_ENABLED m = true -> req_user req = Some l -> heap w !! l = Some u ->
    to_boolean (expires_at u) = true ->
    number_le (clock w / 1000) (expires_at u) = false ->
    to_boolean (refresh_token u) = true ->
    fst (getOidcConfig w) = Throw err ->
    guard_path m req w (Ok tt)
      (emit unauthorized (snd (getOidcConfig (emit DateNow w))))
      (DateNow :: events_of getOidcConfig w ++ [unauthorized])
| path_refused l u config err :
    AUTH_ENABLED m = true -> req_user req = Some l -> heap w !! l = Some u ->
    to_boolean (expires_at u) = true ->
    number_le (clock w / 1000) (expires_at u) = false ->
    to_boolean (refresh_token u) = true ->
    fst (getOidcConfig w) = Ok config ->
    refreshTokenGrant (client w) config (refresh_token u) = Throw err ->
    guard_path m req w (Ok tt)
      (emit unauthorized
         (emit (RefreshTokenGrant config (refresh_token u))
            (snd (getOidcConfig (emit DateNow w)))))
      (DateNow :: events_of getOidcConfig w ++
       [RefreshTokenGrant config (refresh_token u); unauthorized])
| path_refreshed l u config tokens :
    AUTH_ENABLED m = true -> req_user req = Some l -> heap w !! l = Some u ->
    to_boolean (expires_at u) = true ->
    number_le (clock w / 1000) (expires_at u) = false ->
    to_boolean (refresh_token u) = true ->
    fst (getOidcConfig w) = Ok config ->
    refreshTokenGrant (client w) config (refresh_token u) = Ok tokens ->
    guard_path m req w (Ok tt)
      (emit Next
         (set_heap (<[l := updateUserSession u tokens]> (heap w))
            (emit (RefreshTokenGrant config (refresh_token u))
               (snd (getOidcConfig (emit DateNow w))))))
      (DateNow :: events_of getOidcConfig w ++
       [RefreshTokenGrant config (refresh_token u); Next]).

(** An environment whose [ALLOWED_ORIGINS] is blank while [REPLIT_DOMAINS]
    and [REPL_ID] are set. *)
Definition env_shadowed : Env :=
  <["ALLOWED_ORIGINS" := " , "]>
    (<["REPLIT_DOMAINS" := "club.example.org"]> (<["REPL_ID" := "club-site"]> ∅)).

Definition shadowed : World :=
  {| process_env := env_shadowed; clock := Examples.today_ms; heap := ∅;
     oidc_cache := None; client := Examples.provider_down;
     strategies := []; trace := [];
     url_parses := fun _ => true; session_store := fun _ => Ok None |}.



(** A configured deployment with a session secret, nobody logged in. *)
Definition env_live : Env :=
  <["SESSION_SECRET" := "s3cret"]> Examples.env_enabled.

Definition live (c : OidcClient) : World :=
  {| process_env := env_live; clock := Examples.today_ms; heap := ∅;
     oidc_cache := None; client := c;
     strategies := []; trace := [];
     url_parses := fun _ => true; session_store := fun _ => Ok None |}.

(** The request the routes receive once [passport.session()] has run on a
    request whose session holds [su]. *)
Definition authenticated_as (su : option loc) (req : Request) : Request :=
  match su with Some l => with_user l req | None => req end.

(** Globals whose second origin has a blank inside, and a world whose URL
    parser refuses strings with a blank. *)
Definition broken_origin : Globals :=
  {| rawDomains := "club.example.org,a b.example";
     allowedDomains := ["club.example.org"; "a b.example"];
     AUTH_ENABLED := true |}.

Definition has_blank (s : string) : bool :=
  existsb (Ascii.eqb " ") (list_ascii_of_string s).

Definition strict : World :=
  {| process_env := env_live; clock := Examples.today_ms; heap := ∅;
     oidc_cache := None;
     client := Examples.provider Examples.answer_no_id_token;
     strategies := []; trace := [];
     url_parses := fun s => negb (has_blank s);
     session_store := fun _ => Ok None |}.

(** A pool whose server cannot be reached. *)
Definition pool_down : Db.Pool :=
  {| Db.acquire := Throw "ECONNREFUSED"; Db.server := fun _ => Ok tt;
     Db.next_client := 3; Db.checked_out := [1%nat]; Db.log := [] |}.

(** A world whose discovery cache was filled at [Examples.today_ms]. *)
Definition warm (u : User) (c : OidcClient) : World :=
  {| process_env := Examples.env_enabled; clock := Examples.today_ms;
     heap := <[0%nat := u]> ∅;
     oidc_cache := Some (Examples.today_ms, Ok Examples.config);
     client := c; strategies := []; trace := [];
     url_parses := fun _ => true;
     session_store := fun _ => Ok (Some 0%nat) |}.

End Observations.

(* ===================================================================== *)
(** ** Properties of the string helpers                                   *)
(* ===================================================================== *)

Section Strings.

Lemma trim_end_to_boolean (s : string) :
  to_boolean (trim_end s) = nonblank s.
Proof.
  unfold nonblank.
  induction s as [|c r IH]; simpl; [reflexivity|].
  destruct (trim_end r) as [|c' r'] eqn:E; simpl in IH; rewrite <- IH.
  - destruct (is_whitespace c); reflexivity.
  - now rewrite orb_true_r.
Qed.

Lemma trim_start_nonblank (s : string) :
  nonblank (trim_start s) = nonblank s.
Proof.
  unfold nonblank.
  induction s as [|c r IH]; simpl; [reflexivity|].
  destruct (is_whitespace c) eqn:E; simpl; [exact IH|].
  now rewrite E.
Qed.

Lemma trim_to_boolean (s : string) : to_boolean (trim s) = nonblank s.
Proof.
  unfold trim. now rewrite trim_end_to_boolean, trim_start_nonblank.
Qed.

Lemma split_not_nil (sep : ascii) (s : string) : split sep s <> [].
Proof.
  destruct s as [|c r]; simpl; [discriminate|].
  destruct (Ascii.eqb c sep); [discriminate|].
  destruct (split sep r); discriminate.
Qed.

(** Some piece of [s.split(sep)] is not blank exactly when [s] has a
    character that is neither the separator nor white space. *)
Lemma split_nonblank (sep : ascii) (s : string) :
  existsb nonblank (split sep s) =
  existsb (fun c => negb (Ascii.eqb c sep) && negb (is_whitespace c))
          (list_ascii_of_string s).
Proof.
  induction s as [|c r IH]; simpl; [reflexivity|].
  destruct (Ascii.eqb c sep) eqn:E; simpl.
  - exact IH.
  - rewrite <- IH.
    destruct (split sep r) as [|h t] eqn:S; [now apply split_not_nil in S|].
    simpl. unfold nonblank at 1. simpl.
    fold (nonblank h). now rewrite orb_assoc.
Qed.

Lemma filter_not_nil {A} (p : A -> bool) (l : list A) :
  List.filter p l <> [] <-> existsb p l = true.
Proof.
  induction l as [|x r IH]; simpl.
  - split; [congruence | discriminate].
  - destruct (p x); simpl; [split; [reflexivity | discriminate] | exact IH].
Qed.

Lemma existsb_map {A B} (f : A -> B) (p : B -> bool) (l : list A) :
  existsb p (List.map f l) = existsb (fun a => p (f a)) l.
Proof.
  induction l as [|x r IH]; simpl; [reflexivity | now rewrite IH].
Qed.

Lemma existsb_ext_eq {A} (p q : A -> bool) (l : list A) :
  (forall a, p a = q a) -> existsb p l = existsb q l.
Proof.
  intros H. induction l as [|x r IH]; simpl; [reflexivity | now rewrite H, IH].
Qed.

(** The origins parsed from [raw] are not empty exactly when [raw] has a
    character other than a comma and white space. *)
Lemma origins_not_nil (raw : string) :
  List.filter to_boolean (List.map trim (split "," raw)) <> [] <->
  exists c, In c (list_ascii_of_string raw) /\ c <> ","%char /\
            is_whitespace c = false.
Proof.
  rewrite filter_not_nil, existsb_map.
  rewrite (existsb_ext_eq _ nonblank) by apply trim_to_boolean.
  rewrite split_nonblank, existsb_exists.
  split; intros (c & Hin & Hc); exists c; (split; [exact Hin|]).
  - apply andb_true_iff in Hc as [H1 H2].
    apply negb_true_iff in H1, H2. apply Ascii.eqb_neq in H1. now split.
  - destruct Hc as [H1 H2]. apply Ascii.eqb_neq in H1. now rewrite H1, H2.
Qed.

End Strings.

(* ===================================================================== *)
(** ** Properties of the connection provider                              *)
(* ===================================================================== *)

Section ConnectionProvider.
Import Db.

(** C7, as stated, fails: with [DATABASE_URL] set to the empty string the
    variable is present, and loading the module still throws
    "DATABASE_URL is not set", before any pool is constructed. *)
Lemma load_empty_url_throws :
  Examples.env_empty_url !! "DATABASE_URL" = Some "" /\
  Db.load Examples.env_empty_url [] = (Throw "DATABASE_URL is not set", []).
Proof. split; reflexivity. Qed.

(** C7, amended.  If [DATABASE_URL] is absent or empty, loading the module
    throws and nothing has been constructed (the load trace is unchanged);
    if it is set to a non-empty string, loading does not throw: it builds
    one pool on that connection string, with certificate validation off,
    and the query handle on that pool. *)
Theorem load_database_url (env : Env) (t : list load_event) :
  (env !! "DATABASE_URL" = None \/ env !! "DATABASE_URL" = Some "" ->
   Db.load env t = (Throw "DATABASE_URL is not set", t)) /\
  (forall cs, env !! "DATABASE_URL" = Some cs -> cs <> "" ->
   let cfg := {| connectionString := Some cs; ssl_rejectUnauthorized := false |} in
   Db.load env t = (Ok {| pool := cfg; db := cfg |}, t ++ [NewPool cfg; Drizzle cfg])).
Proof.
  unfold Db.load. split.
  - intros [-> | ->]; reflexivity.
  - intros cs -> Hcs. destruct cs as [|c r]; [congruence|].
    cbn. now rewrite <- app_assoc.
Qed.

Lemma load_database_url_witness :
  Db.load Examples.env_empty_url [] = (Throw "DATABASE_URL is not set", []) /\
  fst (Db.load Examples.env_enabled []) =
    Ok {| pool := {| connectionString := Some "postgres://db/club";
                     ssl_rejectUnauthorized := false |};
          db := {| connectionString := Some "postgres://db/club";
                   ssl_rejectUnauthorized := false |} |}.
Proof.
  split.
  - apply (proj1 (load_database_url Examples.env_empty_url [])).
    right. reflexivity.
  - rewrite (proj2 (load_database_url Examples.env_enabled [])
               "postgres://db/club"); [reflexivity | reflexivity | discriminate].
Defined.

Lemma remove_first_head (c : Client) (l : list Client) :
  remove_first c (c :: l) = l.
Proof. simpl. now rewrite Nat.eqb_refl. Qed.

(** C8.  When [pingDb] acquires a connection [c], it runs the query on it
    and releases it, in this order and whatever the query does: the log
    grows by exactly connect, query, release, so [c] is released once and
    the set of checked-out clients is as before.  The result is [true] if
    the query succeeded, and the query's error, thrown after the release,
    if it failed. *)
Theorem pingDb_releases_once (p : Pool) (H : acquire p = Ok tt) :
  let c := next_client p in
  let evs := [Connect c; Query c "select 1"; Release c] in
  exists p',
    pingDb p =
      (match server p "select 1" with Ok _ => Ok true | Throw e => Throw e end, p') /\
    log p' = log p ++ evs /\
    releases c evs = 1%nat /\
    checked_out p' = checked_out p.
Proof.
  intros c evs. unfold pingDb, pool_connect, bind, get. rewrite H.
  unfold try_finally, client_query, client_release, modify, ret, bind, get, await.
  subst c evs. cbn.
  destruct (server p "select 1") as [[]|e]; cbn;
    rewrite !Nat.eqb_refl; cbn;
    (eexists; split; [reflexivity|]); cbn;
    rewrite <- !app_assoc, ?Nat.eqb_refl; auto.
Qed.

Lemma pingDb_releases_once_witness :
  exists p',
    pingDb (Examples.pool_up (fun _ => Throw "boom")) = (Throw "boom", p') /\
    log p' = [Connect 3; Query 3 "select 1"; Release 3] /\
    checked_out p' = [1%nat].
Proof.
  destruct (pingDb_releases_once (Examples.pool_up (fun _ => Throw "boom")) eq_refl)
    as (p' & Hrun & Hlog & _ & Hout).
  exists p'. repeat split; assumption.
Defined.

End ConnectionProvider.

(* ===================================================================== *)
(** ** Properties of the OIDC bootstrap                                   *)
(* ===================================================================== *)

Import Auth.

Lemma skipn_length_app {A} (l k : list A) :
  List.skipn (List.length l) (l ++ k) = k.
Proof. induction l as [|x r IH]; simpl; [reflexivity | exact IH]. Qed.

(** Reading the events of a run off the world it ends in. *)
Lemma events_of_intro {A} (m : M World A) (w : World) (evs : list event) :
  trace (snd (m w)) = trace w ++ evs -> events_of m w = evs.
Proof. unfold events_of. intros ->. apply skipn_length_app. Qed.

Section Discovery.

Implicit Types (w : World) (e : event).

(** The one network call of a discovery. *)
Local Abbreviation fetch w :=
  (Discovery (issuer_url (process_env w)) (process_env w !! "REPL_ID")).

(** [getOidcConfig] answers from the cache while the entry is in use, and
    otherwise runs the discovery once and caches the outcome: the answer to
    the one network call or, when the issuer URL does not parse, the
    [TypeError] thrown before any call. *)
Lemma getOidcConfig_run w :
  getOidcConfig w =
  match cached (clock w) (oidc_cache w) with
  | Some p => (p, w)
  | None =>
      if url_parses w (issuer_url (process_env w)) then
        let p := discovery (client w) (issuer_url (process_env w))
                   (process_env w !! "REPL_ID") in
        (p, set_oidc_cache (Some (clock w, p)) (emit (fetch w) w))
      else
        (Throw "TypeError: Invalid URL",
         set_oidc_cache (Some (clock w, Throw "TypeError: Invalid URL")) w)
  end.
Proof.
  unfold getOidcConfig, memoize, bind, get.
  destruct (cached (clock w) (oidc_cache w)); [reflexivity|].
  unfold discover, new_URL, bind, get.
  destruct (url_parses w (issuer_url (process_env w))); reflexivity.
Qed.

Lemma getOidcConfig_events w :
  events_of getOidcConfig w =
  match cached (clock w) (oidc_cache w) with
  | Some _ => []
  | None => if url_parses w (issuer_url (process_env w)) then [fetch w] else []
  end.
Proof.
  apply events_of_intro. rewrite getOidcConfig_run.
  destruct (cached (clock w) (oidc_cache w)); simpl;
    [now rewrite app_nil_r|].
  destruct (url_parses w _); simpl; [reflexivity | now rewrite app_nil_r].
Qed.

Lemma getOidcConfig_trace w :
  trace (snd (getOidcConfig w)) = trace w ++ events_of getOidcConfig w.
Proof.
  rewrite getOidcConfig_events, getOidcConfig_run.
  destruct (cached (clock w) (oidc_cache w)); simpl;
    [now rewrite app_nil_r|].
  destruct (url_parses w _); simpl; [reflexivity | now rewrite app_nil_r].
Qed.

Lemma getOidcConfig_heap w : heap (snd (getOidcConfig w)) = heap w.
Proof.
  rewrite getOidcConfig_run.
  destruct (cached (clock w) (oidc_cache w)); [reflexivity|].
  destruct (url_parses w _); reflexivity.
Qed.

Lemma getOidcConfig_client w : client (snd (getOidcConfig w)) = client w.
Proof.
  rewrite getOidcConfig_run.
  destruct (cached (clock w) (oidc_cache w)); [reflexivity|].
  destruct (url_parses w _); reflexivity.
Qed.

(** What is already in the trace has no influence on the discovery. *)
Lemma getOidcConfig_emit w e :
  fst (getOidcConfig (emit e w)) = fst (getOidcConfig w) /\
  events_of getOidcConfig (emit e w) = events_of getOidcConfig w.
Proof.
  rewrite !getOidcConfig_events, !getOidcConfig_run. simpl.
  destruct (cached (clock w) (oidc_cache w)); [split; reflexivity|].
  destruct (url_parses w _); split; reflexivity.
Qed.

Lemma getOidcConfig_quiet w (p : event -> bool) :
  (forall i c, p (Discovery i c) = false) ->
  existsb p (events_of getOidcConfig w) = false.
Proof.
  intros H. rewrite getOidcConfig_events.
  destruct (cached (clock w) (oidc_cache w)); simpl; [reflexivity|].
  destruct (url_parses w _); simpl; [now rewrite H | reflexivity].
Qed.

End Discovery.

(** *** The paths of the guard *)

#[local] Arguments getOidcConfig : simpl never.

Lemma guard_disabled (m : Globals) (req : Request) (w : World) :
  AUTH_ENABLED m = false ->
  isAuthenticated m req w = (Ok tt, emit Next w).
Proof. intros H. unfold isAuthenticated. now rewrite H. Qed.

Lemma guard_anonymous (m : Globals) (req : Request) (w : World) :
  AUTH_ENABLED m = true -> req_user req = None ->
  isAuthenticated m req w = (Ok tt, emit unauthorized w).
Proof.
  intros H Hreq. unfold isAuthenticated, req_isAuthenticated.
  rewrite H, Hreq. reflexivity.
Qed.

Section Guard.

Variables (m : Globals) (req : Request) (w : World) (l : loc) (u : User).
Hypothesis enabled : AUTH_ENABLED m = true.
Hypothesis principal : req_user req = Some l.
Hypothesis stored : heap w !! l = Some u.

Let now : Z := clock w / 1000.

(** The world in which the discovery of the refresh path starts, and the
    one it ends in. *)
Let w0 : World := emit DateNow w.
Let w1 : World := snd (getOidcConfig w0).

Lemma guard_falsy_expiry :
  to_boolean (expires_at u) = false ->
  isAuthenticated m req w = (Ok tt, emit unauthorized w).
Proof.
  intros H. unfold isAuthenticated, req_isAuthenticated, bind, deref, get.
  rewrite enabled, principal. cbn. rewrite stored. cbn. now rewrite H.
Qed.

Lemma guard_valid :
  to_boolean (expires_at u) = true ->
  number_le now (expires_at u) = true ->
  isAuthenticated m req w = (Ok tt, emit Next w0).
Proof.
  intros H Hle. unfold isAuthenticated, req_isAuthenticated, bind, deref, get.
  rewrite enabled, principal. cbn. rewrite stored. cbn. rewrite H. cbn.
  rewrite stored. cbn. fold now. now rewrite Hle.
Qed.

Lemma guard_no_refresh_token :
  to_boolean (expires_at u) = true ->
  number_le now (expires_at u) = false ->
  to_boolean (refresh_token u) = false ->
  isAuthenticated m req w = (Ok tt, emit unauthorized w0).
Proof.
  intros H Hle Hrt.
  unfold isAuthenticated, req_isAuthenticated, bind, deref, get.
  rewrite enabled, principal. cbn. rewrite stored. cbn. rewrite H. cbn.
  rewrite stored. cbn. fold now. rewrite Hle, Hrt. reflexivity.
Qed.

Lemma guard_refresh :
  to_boolean (expires_at u) = true ->
  number_le now (expires_at u) = false ->
  to_boolean (refresh_token u) = true ->
  isAuthenticated m req w =
  match fst (getOidcConfig w0) with
  | Ok config =>
      let w2 := emit (RefreshTokenGrant config (refresh_token u)) w1 in
      match refreshTokenGrant (client w) config (refresh_token u) with
      | Ok tokenResponse =>
          (Ok tt,
           emit Next
             (set_heap (<[l := updateUserSession u tokenResponse]> (heap w)) w2))
      | Throw _ => (Ok tt, emit unauthorized w2)
      end
  | Throw _ => (Ok tt, emit unauthorized w1)
  end.
Proof.
  intros H Hle Hrt.
  pose proof (getOidcConfig_heap w0) as Hh.
  pose proof (getOidcConfig_client w0) as Hc.
  unfold isAuthenticated, req_isAuthenticated, bind, deref, get.
  rewrite enabled, principal. cbn. rewrite stored. cbn. rewrite H. cbn.
  rewrite stored. cbn. fold now. rewrite Hle, Hrt. cbn.
  unfold try_catch, mutate, bind, deref, get. fold w0. subst w1.
  destruct (getOidcConfig w0) as [[config|err] wd]; cbn in *; [|reflexivity].
  rewrite Hc.
  destruct (refreshTokenGrant (client w) config (refresh_token u))
    as [tokenResponse|err]; cbn; [|reflexivity].
  rewrite Hh, stored. cbn. now rewrite Hh.
Qed.

(** The refresh path in terms of what is observed: the guard returns, the
    trace grows by the clock reading, the discovery and the attempt, and the
    user object changes only when the exchange succeeds. *)
Lemma guard_refresh_observed :
  to_boolean (expires_at u) = true ->
  number_le now (expires_at u) = false ->
  to_boolean (refresh_token u) = true ->
  fst (isAuthenticated m req w) = Ok tt /\
  events_of (isAuthenticated m req) w =
    DateNow :: events_of getOidcConfig w ++
    match fst (getOidcConfig w) with
    | Ok config =>
        RefreshTokenGrant config (refresh_token u) ::
        match refreshTokenGrant (client w) config (refresh_token u) with
        | Ok _ => [Next]
        | Throw _ => [unauthorized]
        end
    | Throw _ => [unauthorized]
    end /\
  heap (snd (isAuthenticated m req w)) =
    match fst (getOidcConfig w) with
    | Ok config =>
        match refreshTokenGrant (client w) config (refresh_token u) with
        | Ok tokenResponse => <[l := updateUserSession u tokenResponse]> (heap w)
        | Throw _ => heap w
        end
    | Throw _ => heap w
    end.
Proof.
  intros H Hle Hrt. pose proof (guard_refresh H Hle Hrt) as Hrun.
  destruct (getOidcConfig_emit w DateNow) as [Hfst Hevs]. fold w0 in Hfst, Hevs.
  pose proof (getOidcConfig_trace w0) as Ht. fold w1 in Ht.
  pose proof (getOidcConfig_heap w0) as Hh. fold w1 in Hh.
  rewrite Hevs in Ht. rewrite Hfst in Hrun. clear Hfst Hevs.
  assert (Ht' : forall tl, (trace w1 ++ tl) =
            trace w ++ DateNow :: events_of getOidcConfig w ++ tl).
  { intros tl. rewrite Ht. subst w0. cbn. now rewrite <- !app_assoc. }
  split; [|split; [apply events_of_intro|]]; rewrite Hrun;
    destruct (fst (getOidcConfig w)) as [config|err];
    try destruct (refreshTokenGrant (client w) config (refresh_token u));
    cbn; rewrite <- ?app_assoc; auto.
Qed.

End Guard.

Lemma truthy_expiry (u : User) (e : Z) :
  expires_at u = Some e -> e <> 0 -> to_boolean (expires_at u) = true.
Proof.
  intros -> He. cbn. unfold number_to_boolean.
  apply negb_true_iff, Z.eqb_neq, He.
Qed.

Lemma past_expiry (u : User) (e now : Z) :
  expires_at u = Some e -> e < now -> number_le now (expires_at u) = false.
Proof. intros -> He. cbn. apply Z.leb_gt, He. Qed.

Lemma find_skip_prefix {A} (p : A -> bool) (l k : list A) :
  (forall x, In x l -> p x = false) ->
  List.find p (l ++ k) = List.find p k.
Proof.
  induction l as [|x r IH]; intros H; simpl; [reflexivity|].
  rewrite (H x) by now left. apply IH. intros y Hy. apply H. now right.
Qed.

(** *** Requests on their way to a route *)

(** The three middleware of [setupAuth] pass a request on when there is a
    session secret and the session store answers. *)
Lemma middleware_passes (options : SessionOptions) (req : Request) (w : World)
    (su : option loc) :
  to_boolean (secret options) = true ->
  session_store w req = Ok su ->
  run_middlewares [Session options; PassportInitialize; PassportSession]
    {| ex_req := req; ex_session := None |} w
  = (Ok (Some {| ex_req := Observations.authenticated_as su req;
                 ex_session := Some su |}), w).
Proof.
  intros Hsecret Hstore. cbn. unfold bind, get. rewrite Hsecret. cbn.
  rewrite Hstore. cbn. destruct su; reflexivity.
Qed.

(** Without a secret the session middleware ends every request with 500. *)
Lemma middleware_without_secret (options : SessionOptions) (req : Request)
    (w : World) :
  to_boolean (secret options) = false ->
  run_middlewares [Session options; PassportInitialize; PassportSession]
    {| ex_req := req; ex_session := None |} w
  = (Ok None, emit (ServerError "secret option required for sessions") w).
Proof. intros Hsecret. cbn. unfold bind. rewrite Hsecret. reflexivity. Qed.

Lemma serve_registered (app : App) (p : string) (h : Request -> M World unit)
    (before after : list Route) (options : SessionOptions)
    (req : Request) (w : World) (su : option loc) :
  middleware app = [Session options; PassportInitialize; PassportSession] ->
  to_boolean (secret options) = true ->
  session_store w req = Ok su ->
  routes app = before ++ {| path := p; handler := h |} :: after ->
  (forall r, In r before -> path r <> p) ->
  serve_get app p req w = h (Observations.authenticated_as su req) w.
Proof.
  intros Hmw Hsecret Hstore Hr Hfree. unfold serve_get.
  rewrite Hmw. unfold bind at 1.
  rewrite (middleware_passes options req w su Hsecret Hstore).
  cbn [ex_req]. rewrite Hr, find_skip_prefix.
  - cbn. now rewrite String.eqb_refl.
  - intros r Hin. apply String.eqb_neq. now apply Hfree.
Qed.

Lemma auth_path_free (app : App) (k : string) :
  (forall r, In r (routes app) -> ~ In (path r) auth_paths) ->
  In k auth_paths ->
  forall r, In r (routes app) -> path r <> k.
Proof. intros Hfree Hk r Hr E. apply (Hfree r Hr). now rewrite E. Qed.

(** *** When authentication is disabled *)

Lemma setupAuth_disabled_run (m : Globals) (app : App) (w : World) :
  AUTH_ENABLED m = false ->
  exists app' options,
    setupAuth m app w = (Ok app', w) /\
    secret options = process_env w !! "SESSION_SECRET" /\
    settings app' = settings app ++ [("trust proxy", 1)] /\
    getSession w = (Ok options, w) /\
    middleware app' =
      middleware app ++ [Session options; PassportInitialize; PassportSession] /\
    routes app' = routes app ++
      [ {| path := "/api/login";
           handler := fun _ => status_json 503 not_configured |};
        {| path := "/api/callback";
           handler := fun _ => status_json 503 not_configured |};
        {| path := "/api/logout";
           handler := fun _ =>
             status_json 200 "Already logged out (auth disabled)." |} ].
Proof.
  intros Hoff. unfold setupAuth, getSession, bind, get, ret. rewrite Hoff. cbn.
  do 2 eexists. split; [reflexivity|]. cbn.
  rewrite <- !app_assoc. repeat split; reflexivity.
Qed.




(** *** The switch *)

(** C6.  Loading the module never throws and fixes [AUTH_ENABLED] once:
    the guard and [setupAuth] read the record [load] returns, not the
    environment.  The flag is true exactly when [allowedDomains] (the pieces
    of [ALLOWED_ORIGINS ?? REPLIT_DOMAINS ?? ""] between commas, trimmed,
    the empty ones dropped) has an element and [REPL_ID] is set to a
    non-empty string.  [allowedDomains] has an element exactly when the raw
    string has a character other than a comma and white space. *)
Theorem auth_enabled_iff (w : World) :
  exists m w',
    Auth.load w = (Ok m, w') /\
    trace w' = trace w ++ (if AUTH_ENABLED m then [] else [ConsoleWarn]) /\
    rawDomains m =
      default "" (nullish (process_env w !! "ALLOWED_ORIGINS")
                          (process_env w !! "REPLIT_DOMAINS")) /\
    allowedDomains m =
      List.filter to_boolean (List.map trim (split "," (rawDomains m))) /\
    (AUTH_ENABLED m = true <->
       (exists d, In d (allowedDomains m)) /\
       (exists id, process_env w !! "REPL_ID" = Some id /\ id <> "")) /\
    ((exists d, In d (allowedDomains m)) <->
       exists c, In c (list_ascii_of_string (rawDomains m)) /\
                 c <> ","%char /\ is_whitespace c = false).
Proof.
  unfold Auth.load, bind, get.
  set (raw := default "" _).
  set (origins := List.filter to_boolean (List.map trim (split "," raw))).
  set (flag := _ && _).
  assert (Hsome : (exists d, In d origins) <-> origins <> []).
  { destruct origins as [|d r]; split.
    - intros [d []]. - congruence. - discriminate. - exists d. now left. }
  assert (Hflag : flag = true <->
            (exists d, In d origins) /\
            (exists id, process_env w !! "REPL_ID" = Some id /\ id <> "")).
  { assert (H1 : (0 <? Z.of_nat (List.length origins)) = true <-> origins <> []).
    { rewrite Z.ltb_lt. destruct origins; cbn; split; try congruence; lia. }
    assert (H2 : to_boolean (process_env w !! "REPL_ID") = true <->
              exists id, process_env w !! "REPL_ID" = Some id /\ id <> "").
    { destruct (process_env w !! "REPL_ID") as [[|c r]|]; cbn; split;
        try discriminate; try (intros (id & [= <-] & Hid); congruence);
        try (intros (id & [=] & _)).
      intros _. eexists. split; [reflexivity | discriminate]. }
    subst flag. rewrite andb_true_iff, H1, H2, Hsome. reflexivity. }
  assert (Hraw : (exists d, In d origins) <->
            exists c, In c (list_ascii_of_string raw) /\
                      c <> ","%char /\ is_whitespace c = false).
  { rewrite Hsome. apply origins_not_nil. }
  destruct flag; cbn; do 2 eexists; (split; [reflexivity|]); cbn;
    rewrite ?app_nil_r; auto 10.
Qed.

(** The two deployments of the examples, as [load] computes them. *)
Example load_configured :
  fst (Auth.load (Examples.world Examples.today_ms empty_user Examples.provider_down))
  = Ok Examples.enabled.
Proof. reflexivity. Qed.

Example load_unconfigured :
  Auth.load Examples.unconfigured
  = (Ok Examples.disabled, emit ConsoleWarn Examples.unconfigured).
Proof. reflexivity. Qed.

(** *** Sessions without a usable expiry *)

(** C10.  With authentication enabled and a user on the request, a falsy
    [expires_at] ([undefined], or the number 0) makes the guard answer 401
    at once: that response is its only effect, whatever the refresh token
    is.  Conversely a run that reads the clock for the expiry comparison or
    attempts a refresh has a truthy [expires_at]. *)
Theorem falsy_expiry_rejected (m : Globals) (req : Request) (w : World)
    (l : loc) (u : User)
    (Hen : AUTH_ENABLED m = true)
    (Hreq : req_user req = Some l)
    (Hu : heap w !! l = Some u) :
  (to_boolean (expires_at u) = false ->
     fst (isAuthenticated m req w) = Ok tt /\
     events_of (isAuthenticated m req) w = [unauthorized]) /\
  (expires_at u = Some 0 ->
     events_of (isAuthenticated m req) w = [unauthorized]) /\
  (In DateNow (events_of (isAuthenticated m req) w) \/
   existsb is_refresh (events_of (isAuthenticated m req) w) = true ->
     to_boolean (expires_at u) = true).
Proof.
  assert (Hfalsy : to_boolean (expires_at u) = false ->
            fst (isAuthenticated m req w) = Ok tt /\
            events_of (isAuthenticated m req) w = [unauthorized]).
  { intros Hf. pose proof (guard_falsy_expiry m req w l u Hen Hreq Hu Hf) as Hrun.
    split; [now rewrite Hrun|]. apply events_of_intro. now rewrite Hrun. }
  split; [exact Hfalsy|]. split.
  - intros He. apply Hfalsy. now rewrite He.
  - intros Hreach. destruct (to_boolean (expires_at u)) eqn:E; [reflexivity|].
    destruct (Hfalsy eq_refl) as [_ Hevs]. rewrite Hevs in Hreach.
    destruct Hreach as [[|[]]|]; discriminate.
Qed.

Lemma falsy_expiry_rejected_witness :
  events_of (isAuthenticated Examples.enabled Examples.request)
    (Examples.world Examples.today_ms
       (Examples.session_user (Some 0) (Some "rt-1"))
       (Examples.provider (Examples.answer (Some 0) None)))
  = [unauthorized].
Proof.
  apply (falsy_expiry_rejected Examples.enabled Examples.request
           (Examples.world Examples.today_ms
              (Examples.session_user (Some 0) (Some "rt-1"))
              (Examples.provider (Examples.answer (Some 0) None)))
           0%nat (Examples.session_user (Some 0) (Some "rt-1")));
    reflexivity.
Defined.

(** *** Sessions that have not expired *)

(** C4, as stated, fails: at the epoch ([Date.now()] below 1000) a session
    with [expires_at] 0 satisfies [now <= expires_at], and the guard answers
    401, because 0 is falsy. *)
Lemma epoch_session_rejected :
  let u := Examples.session_user (Some 0) (Some "rt-1") in
  let w := Examples.world 0 u (Examples.provider (Examples.answer (Some 0) None)) in
  AUTH_ENABLED Examples.enabled = true /\
  req_user Examples.request = Some 0%nat /\
  heap w !! 0%nat = Some u /\
  expires_at u = Some 0 /\
  clock w / 1000 <= 0 /\
  events_of (isAuthenticated Examples.enabled Examples.request) w = [unauthorized].
Proof. cbv zeta. repeat split; solve [reflexivity | vm_compute; discriminate]. Qed.

(** C4, amended.  For an authenticated session whose [expires_at] is a
    number other than 0 with [now <= expires_at], the guard reads the clock
    and calls [next], and nothing else: no discovery, no refresh, the user
    object and the discovery cache untouched. *)
Theorem valid_session_passes (m : Globals) (req : Request) (w : World)
    (l : loc) (u : User) (e : Z)
    (Hen : AUTH_ENABLED m = true)
    (Hreq : req_user req = Some l)
    (Hu : heap w !! l = Some u)
    (He : expires_at u = Some e)
    (Hnz : e <> 0)
    (Hle : clock w / 1000 <= e) :
  fst (isAuthenticated m req w) = Ok tt /\
  events_of (isAuthenticated m req) w = [DateNow; Next] /\
  existsb is_network_call (events_of (isAuthenticated m req) w) = false /\
  heap (snd (isAuthenticated m req w)) = heap w /\
  oidc_cache (snd (isAuthenticated m req w)) = oidc_cache w.
Proof.
  assert (Hrun : isAuthenticated m req w = (Ok tt, emit Next (emit DateNow w))).
  { apply (guard_valid m req w l u Hen Hreq Hu (truthy_expiry u e He Hnz)).
    rewrite He. cbn. apply Z.leb_le, Hle. }
  assert (Hevs : events_of (isAuthenticated m req) w = [DateNow; Next]).
  { apply events_of_intro. rewrite Hrun. cbn. now rewrite <- app_assoc. }
  rewrite Hevs, Hrun. repeat split.
Qed.

Lemma valid_session_passes_witness :
  events_of (isAuthenticated Examples.enabled Examples.request)
    (Examples.world Examples.today_ms
       (Examples.session_user (Some (Examples.today + 3600)) None)
       Examples.provider_down)
  = [DateNow; Next].
Proof.
  apply (valid_session_passes Examples.enabled Examples.request
           (Examples.world Examples.today_ms
              (Examples.session_user (Some (Examples.today + 3600)) None)
              Examples.provider_down)
           0%nat (Examples.session_user (Some (Examples.today + 3600)) None)
           (Examples.today + 3600));
    try reflexivity; vm_compute; discriminate.
Defined.

(** *** Expired sessions *)

(** C5.  With authentication enabled, a session whose [expires_at] is in
    the past and whose [refresh_token] is [undefined] is answered 401: the
    guard's only effects are that response and, when [expires_at] is not 0,
    the clock reading before it.  Neither the discovery nor the refresh
    exchange is called, and the discovery cache is not touched. *)
Theorem expired_without_refresh_token_rejected (m : Globals) (req : Request)
    (w : World) (l : loc) (u : User) (e : Z)
    (Hen : AUTH_ENABLED m = true)
    (Hreq : req_user req = Some l)
    (Hu : heap w !! l = Some u)
    (He : expires_at u = Some e)
    (Hpast : e < clock w / 1000)
    (Hrt : refresh_token u = None) :
  fst (isAuthenticated m req w) = Ok tt /\
  events_of (isAuthenticated m req) w =
    (if Z.eqb e 0 then [unauthorized] else [DateNow; unauthorized]) /\
  existsb is_network_call (events_of (isAuthenticated m req) w) = false /\
  oidc_cache (snd (isAuthenticated m req w)) = oidc_cache w.
Proof.
  destruct (Z.eqb_spec e 0) as [E | E].
  - assert (Hrun : isAuthenticated m req w = (Ok tt, emit unauthorized w)).
    { apply (guard_falsy_expiry m req w l u Hen Hreq Hu).
      now rewrite He, E. }
    assert (Hevs : events_of (isAuthenticated m req) w = [unauthorized]).
    { apply events_of_intro. now rewrite Hrun. }
    rewrite Hevs, Hrun. repeat split.
  - assert (Hrun : isAuthenticated m req w
                   = (Ok tt, emit unauthorized (emit DateNow w))).
    { apply (guard_no_refresh_token m req w l u Hen Hreq Hu
               (truthy_expiry u e He E) (past_expiry u e _ He Hpast)).
      now rewrite Hrt. }
    assert (Hevs : events_of (isAuthenticated m req) w = [DateNow; unauthorized]).
    { apply events_of_intro. rewrite Hrun. cbn. now rewrite <- app_assoc. }
    rewrite Hevs, Hrun. repeat split.
Qed.

Lemma expired_without_refresh_token_rejected_witness :
  events_of (isAuthenticated Examples.enabled Examples.request)
    (Examples.world Examples.today_ms
       (Examples.session_user (Some (Examples.today - 60)) None)
       (Examples.provider Examples.answer_no_id_token))
  = [DateNow; unauthorized].
Proof.
  apply (expired_without_refresh_token_rejected Examples.enabled Examples.request
           (Examples.world Examples.today_ms
              (Examples.session_user (Some (Examples.today - 60)) None)
              (Examples.provider Examples.answer_no_id_token))
           0%nat (Examples.session_user (Some (Examples.today - 60)) None)
           (Examples.today - 60));
    reflexivity.
Defined.

Lemma filter_discovery (w : World) (p : event -> bool) :
  (forall i c, p (Discovery i c) = false) ->
  List.filter p (events_of getOidcConfig w) = [].
Proof.
  intros H. rewrite getOidcConfig_events.
  destruct (cached (clock w) (oidc_cache w)); simpl; [reflexivity|].
  destruct (url_parses w _); simpl; [now rewrite H | reflexivity].
Qed.

Lemma discovery_events_only (w : World) (e : event) :
  In e (events_of getOidcConfig w) -> exists i c, e = Discovery i c.
Proof.
  rewrite getOidcConfig_events.
  destruct (cached (clock w) (oidc_cache w)); simpl; [tauto|].
  destruct (url_parses w _); simpl; [|tauto].
  intros [<- | []]. eauto.
Qed.

Lemma count_refresh_attempt (w : World) (tl : list event) :
  count_events is_refresh (DateNow :: events_of getOidcConfig w ++ tl)
  = count_events is_refresh tl.
Proof.
  unfold count_events. cbn. rewrite List.filter_app, filter_discovery; auto.
Qed.

Lemma no_next_before_attempt (w : World) (tl : list event) :
  existsb is_next (DateNow :: events_of getOidcConfig w ++ tl)
  = existsb is_next tl.
Proof.
  cbn. rewrite existsb_app, getOidcConfig_quiet; auto.
Qed.

Lemma last_after_attempt (w : World) (tl : list event) (x : event) :
  last (DateNow :: events_of getOidcConfig w ++ tl ++ [x]) = Some x.
Proof.
  replace (DateNow :: events_of getOidcConfig w ++ tl ++ [x])
    with ((DateNow :: events_of getOidcConfig w ++ tl) ++ [x])
    by (cbn; now rewrite <- app_assoc).
  apply last_snoc.
Qed.

(** C1.  With authentication enabled, a request whose session has an
    [expires_at] in the past is passed on only by a run in which the
    refresh exchange was called and succeeded, [next] being the last thing
    the run does, right after the exchange.  Every other run with a past
    expiry never calls [next] and ends with the 401 response.  The guard
    returns in both cases. *)
Theorem expired_session_needs_refresh (m : Globals) (req : Request)
    (w : World) (l : loc) (u : User) (e : Z)
    (Hen : AUTH_ENABLED m = true)
    (Hreq : req_user req = Some l)
    (Hu : heap w !! l = Some u)
    (He : expires_at u = Some e)
    (Hpast : e < clock w / 1000) :
  fst (isAuthenticated m req w) = Ok tt /\
  ((exists config tokenResponse pre,
      fst (getOidcConfig w) = Ok config /\
      refreshTokenGrant (client w) config (refresh_token u) = Ok tokenResponse /\
      events_of (isAuthenticated m req) w
        = pre ++ [RefreshTokenGrant config (refresh_token u); Next] /\
      existsb is_next pre = false)
   \/
   (existsb is_next (events_of (isAuthenticated m req) w) = false /\
    last (events_of (isAuthenticated m req) w) = Some unauthorized)).
Proof.
  destruct (to_boolean (expires_at u)) eqn:Htruthy.
  2: { pose proof (guard_falsy_expiry m req w l u Hen Hreq Hu Htruthy) as Hrun.
       assert (Hevs : events_of (isAuthenticated m req) w = [unauthorized])
         by (apply events_of_intro; now rewrite Hrun).
       rewrite Hevs, Hrun. split; [reflexivity | right; split; reflexivity]. }
  pose proof (past_expiry u e _ He Hpast) as Hle.
  destruct (to_boolean (refresh_token u)) eqn:Hrt.
  2: { pose proof (guard_no_refresh_token m req w l u Hen Hreq Hu Htruthy Hle Hrt)
         as Hrun.
       assert (Hevs : events_of (isAuthenticated m req) w = [DateNow; unauthorized])
         by (apply events_of_intro; rewrite Hrun; cbn; now rewrite <- app_assoc).
       rewrite Hevs, Hrun. split; [reflexivity | right; split; reflexivity]. }
  destruct (guard_refresh_observed m req w l u Hen Hreq Hu Htruthy Hle Hrt)
    as (Hret & Hevs & _).
  split; [exact Hret|]. rewrite Hevs.
  destruct (fst (getOidcConfig w)) as [config|err].
  - destruct (refreshTokenGrant (client w) config (refresh_token u))
      as [tokenResponse|err] eqn:Hgrant.
    + left. exists config, tokenResponse, (DateNow :: events_of getOidcConfig w).
      repeat split; [exact Hgrant|].
      rewrite <- (app_nil_r (events_of getOidcConfig w)) at 1.
      now rewrite no_next_before_attempt.
    + right. split; [now rewrite no_next_before_attempt|].
      apply (last_after_attempt w [RefreshTokenGrant config (refresh_token u)]).
  - right. split; [now rewrite no_next_before_attempt|].
    apply (last_after_attempt w []).
Qed.

Lemma expired_session_needs_refresh_witness :
  existsb is_next
    (events_of (isAuthenticated Examples.enabled Examples.request)
       (Examples.world Examples.today_ms
          (Examples.session_user (Some (Examples.today - 60)) (Some "rt-1"))
          Examples.provider_refusing)) = false.
Proof.
  destruct (expired_session_needs_refresh Examples.enabled Examples.request
              (Examples.world Examples.today_ms
                 (Examples.session_user (Some (Examples.today - 60)) (Some "rt-1"))
                 Examples.provider_refusing)
              0%nat
              (Examples.session_user (Some (Examples.today - 60)) (Some "rt-1"))
              (Examples.today - 60)
              eq_refl eq_refl eq_refl eq_refl eq_refl)
    as [_ [(config & tokenResponse & pre & _ & Hgrant & _) | [Hnone _]]].
  - discriminate Hgrant.
  - exact Hnone.
Defined.

(** C3, as stated, fails in three ways.  (1) A refresh that succeeds
    without an ID token leaves [expires_at] [undefined], not at a future
    value, and the request is passed on.  (2) A session whose [expires_at]
    is 0, in the past, with a refresh token, is answered 401 without any
    refresh attempt.  (3) So is a session whose refresh token is present but
    the empty string. *)
Lemma refresh_claim_fails :
  let run u c :=
    isAuthenticated Examples.enabled Examples.request
      (Examples.world Examples.today_ms u c) in
  let stale := Some (Examples.today - 60) in
  (events_of (isAuthenticated Examples.enabled Examples.request)
     (Examples.world Examples.today_ms
        (Examples.session_user stale (Some "rt-1"))
        (Examples.provider Examples.answer_no_id_token))
   = [DateNow; Discovery "https://replit.com/oidc" (Some "club-site");
      RefreshTokenGrant Examples.config (Some "rt-1"); Next] /\
   expires_at <$>
     heap (snd (run (Examples.session_user stale (Some "rt-1"))
                    (Examples.provider Examples.answer_no_id_token))) !! 0%nat
   = Some None) /\
  events_of (isAuthenticated Examples.enabled Examples.request)
    (Examples.world Examples.today_ms
       (Examples.session_user (Some 0) (Some "rt-1"))
       (Examples.provider (Examples.answer (Some (Examples.today + 3600)) None)))
  = [unauthorized] /\
  events_of (isAuthenticated Examples.enabled Examples.request)
    (Examples.world Examples.today_ms
       (Examples.session_user stale (Some ""))
       (Examples.provider (Examples.answer (Some (Examples.today + 3600)) None)))
  = [DateNow; unauthorized].
Proof. cbv zeta. repeat split; vm_compute; reflexivity. Qed.

(** C3, amended.  For a session whose [expires_at] is a number other than
    0 in the past and whose [refresh_token] is truthy (a non-empty string),
    the guard makes one refresh attempt: it gets the discovery
    configuration and then calls the exchange at most once, exactly once
    when the configuration was obtained.  If the exchange succeeds, the
    user object of the request is updated in place, no other object being
    written, and the request is passed on: its [claims], [access_token]
    and [refresh_token] become those of the answer, and its [expires_at]
    the [exp] claim of the answer ([undefined] without an ID token), which
    the guard does not compare with the clock.  If the discovery or the exchange fails, the guard answers
    401, leaves the user object as it was and does not try again. *)
Theorem expired_session_refresh_once (m : Globals) (req : Request)
    (w : World) (l : loc) (u : User) (e : Z)
    (Hen : AUTH_ENABLED m = true)
    (Hreq : req_user req = Some l)
    (Hu : heap w !! l = Some u)
    (He : expires_at u = Some e)
    (Hnz : e <> 0)
    (Hpast : e < clock w / 1000)
    (Hrt : to_boolean (refresh_token u) = true) :
  let evs := events_of (isAuthenticated m req) w in
  let w' := snd (isAuthenticated m req w) in
  let attempt := fun config => RefreshTokenGrant config (refresh_token u) in
  fst (isAuthenticated m req w) = Ok tt /\
  (count_events is_refresh evs <= 1)%nat /\
  (forall config tokenResponse,
     fst (getOidcConfig w) = Ok config ->
     refreshTokenGrant (client w) config (refresh_token u) = Ok tokenResponse ->
     evs = DateNow :: events_of getOidcConfig w ++ [attempt config; Next] /\
     count_events is_refresh evs = 1%nat /\
     heap w' !! l = Some (updateUserSession u tokenResponse) /\
     updateUserSession u tokenResponse =
       {| claims := tokens_claims tokenResponse;
          access_token := Some (tokens_access_token tokenResponse);
          refresh_token := tokens_refresh_token tokenResponse;
          expires_at := match tokens_claims tokenResponse with
                        | Some c => exp c
                        | None => None
                        end |} /\
     (forall l', l' <> l -> heap w' !! l' = heap w !! l')) /\
  (forall config err,
     fst (getOidcConfig w) = Ok config ->
     refreshTokenGrant (client w) config (refresh_token u) = Throw err ->
     evs = DateNow :: events_of getOidcConfig w ++ [attempt config; unauthorized] /\
     count_events is_refresh evs = 1%nat /\
     heap w' = heap w) /\
  (forall err,
     fst (getOidcConfig w) = Throw err ->
     evs = DateNow :: events_of getOidcConfig w ++ [unauthorized] /\
     count_events is_refresh evs = 0%nat /\
     heap w' = heap w).
Proof.
  intros evs w' attempt. subst evs w' attempt. cbv beta.
  destruct (guard_refresh_observed m req w l u Hen Hreq Hu
              (truthy_expiry u e He Hnz) (past_expiry u e _ He Hpast) Hrt)
    as (Hret & Hevs & Hheap).
  rewrite Hevs, Hheap. split; [exact Hret|]. split; [|split; [|split]].
  - rewrite count_refresh_attempt.
    destruct (fst (getOidcConfig w)) as [config|err]; [|cbn; lia].
    destruct (refreshTokenGrant (client w) config (refresh_token u)); cbn; lia.
  - intros config tokenResponse -> ->.
    rewrite count_refresh_attempt, lookup_insert_eq. repeat split.
    intros l' Hl'. now apply lookup_insert_ne.
  - intros config err -> ->. rewrite count_refresh_attempt. repeat split.
  - intros err ->. rewrite count_refresh_attempt. repeat split.
Qed.

Lemma expired_session_refresh_once_witness :
  heap (snd (isAuthenticated Examples.enabled Examples.request
               (Examples.world Examples.today_ms
                  (Examples.session_user (Some (Examples.today - 60)) (Some "rt-1"))
                  (Examples.provider
                     (Examples.answer (Some (Examples.today + 3600)) (Some "rt-2"))))))
    !! 0%nat
  = Some {| claims := Some {| sub := "42"; exp := Some (Examples.today + 3600) |};
            access_token := Some "at-2";
            refresh_token := Some "rt-2";
            expires_at := Some (Examples.today + 3600) |}.
Proof.
  refine (proj1 (proj2 (proj2
    (proj1 (proj2 (proj2
      (expired_session_refresh_once Examples.enabled Examples.request
         (Examples.world Examples.today_ms
            (Examples.session_user (Some (Examples.today - 60)) (Some "rt-1"))
            (Examples.provider
               (Examples.answer (Some (Examples.today + 3600)) (Some "rt-2"))))
         0%nat
         (Examples.session_user (Some (Examples.today - 60)) (Some "rt-1"))
         (Examples.today - 60)
         eq_refl eq_refl eq_refl eq_refl _ eq_refl eq_refl)))
      Examples.config
      (Examples.answer (Some (Examples.today + 3600)) (Some "rt-2"))
      eq_refl eq_refl)))).
  vm_compute. discriminate.
Defined.

(** C9.  When the refresh exchange of the guard succeeds, the four fields
    of the user object are overwritten from the answer: [claims] by
    [tokens.claims()], [access_token] and [refresh_token] by the answer's,
    [expires_at] by the [exp] of the new claims.  An answer without a
    refresh token leaves [refresh_token] [undefined] (the old one is not
    kept), an answer without an [exp] leaves [expires_at] [undefined], and
    in every case the run ends by calling [next], without a 401. *)
Theorem refresh_overwrites_user (m : Globals) (req : Request)
    (w : World) (l : loc) (u : User) (e : Z)
    (config : OidcConfig) (tokenResponse : TokenResponse)
    (Hen : AUTH_ENABLED m = true)
    (Hreq : req_user req = Some l)
    (Hu : heap w !! l = Some u)
    (He : expires_at u = Some e)
    (Hnz : e <> 0)
    (Hpast : e < clock w / 1000)
    (Hrt : to_boolean (refresh_token u) = true)
    (Hconfig : fst (getOidcConfig w) = Ok config)
    (Hgrant : refreshTokenGrant (client w) config (refresh_token u)
              = Ok tokenResponse) :
  let evs := events_of (isAuthenticated m req) w in
  let w' := snd (isAuthenticated m req w) in
  let new_exp :=
    match tokens_claims tokenResponse with Some c => exp c | None => None end in
  heap w' !! l =
    Some {| claims := tokens_claims tokenResponse;
            access_token := Some (tokens_access_token tokenResponse);
            refresh_token := tokens_refresh_token tokenResponse;
            expires_at := new_exp |} /\
  (tokens_refresh_token tokenResponse = None ->
     refresh_token <$> heap w' !! l = Some None) /\
  (new_exp = None -> expires_at <$> heap w' !! l = Some None) /\
  fst (isAuthenticated m req w) = Ok tt /\
  last evs = Some Next /\
  ~ In unauthorized evs.
Proof.
  intros evs w' new_exp. subst evs w' new_exp.
  destruct (guard_refresh_observed m req w l u Hen Hreq Hu
              (truthy_expiry u e He Hnz) (past_expiry u e _ He Hpast) Hrt)
    as (Hret & Hevs & Hheap).
  rewrite Hevs, Hheap, Hconfig, Hgrant, lookup_insert_eq.
  split; [reflexivity|]. split; [intros H; cbn; now rewrite H|].
  split; [intros H; cbn; now rewrite H|].
  split; [exact Hret|]. split.
  - apply (last_after_attempt w [RefreshTokenGrant config (refresh_token u)]).
  - intros [H|H]; [discriminate H|]. apply in_app_or in H as [H|H].
    + apply discovery_events_only in H as (i & c & E). discriminate E.
    + destruct H as [H|[H|[]]]; discriminate H.
Qed.

Lemma refresh_overwrites_user_witness :
  heap (snd (isAuthenticated Examples.enabled Examples.request
               (Examples.world Examples.today_ms
                  (Examples.session_user (Some (Examples.today - 60)) (Some "rt-1"))
                  (Examples.provider Examples.answer_no_id_token))))
    !! 0%nat
  = Some {| claims := None; access_token := Some "at-2";
            refresh_token := None; expires_at := None |}.
Proof.
  refine (proj1
    (refresh_overwrites_user Examples.enabled Examples.request
       (Examples.world Examples.today_ms
          (Examples.session_user (Some (Examples.today - 60)) (Some "rt-1"))
          (Examples.provider Examples.answer_no_id_token))
       0%nat
       (Examples.session_user (Some (Examples.today - 60)) (Some "rt-1"))
       (Examples.today - 60)
       Examples.config Examples.answer_no_id_token
       eq_refl eq_refl eq_refl eq_refl _ eq_refl eq_refl eq_refl eq_refl)).
  vm_compute. discriminate.
Defined.

(* ===================================================================== *)
(** ** Further properties of the guard                                    *)
(* ===================================================================== *)

Import Observations.

Lemma guard_dangling (m : Globals) (req : Request) (w : World) (l : loc) :
  AUTH_ENABLED m = true -> req_user req = Some l -> heap w !! l = None ->
  isAuthenticated m req w = (Throw "TypeError", w).
Proof.
  intros Hen Hreq Hl. unfold isAuthenticated, req_isAuthenticated, bind, deref, get.
  rewrite Hen, Hreq. cbn. now rewrite Hl.
Qed.

(** Every run of the guard is one of the paths. *)
Lemma guard_follows_path (m : Globals) (req : Request) (w : World) :
  guard_path m req w
    (fst (isAuthenticated m req w)) (snd (isAuthenticated m req w))
    (events_of (isAuthenticated m req) w).
Proof.
  assert (Hpath : forall r w' evs,
            isAuthenticated m req w = (r, w') -> trace w' = trace w ++ evs ->
            guard_path m req w r w' evs ->
            guard_path m req w
              (fst (isAuthenticated m req w)) (snd (isAuthenticated m req w))
              (events_of (isAuthenticated m req) w)).
  { intros r w' evs Hrun Ht Hp.
    rewrite (events_of_intro _ w evs) by now rewrite Hrun.
    now rewrite Hrun. }
  destruct (AUTH_ENABLED m) eqn:Hen.
  2: { eapply Hpath; [apply guard_disabled, Hen | reflexivity | now constructor]. }
  destruct (req_user req) as [l|] eqn:Hreq.
  2: { eapply Hpath;
         [apply guard_anonymous; assumption | reflexivity | now constructor]. }
  destruct (heap w !! l) as [u|] eqn:Hu.
  2: { eapply Hpath; [eapply guard_dangling; eassumption | |].
       - cbn. now rewrite app_nil_r.
       - econstructor; eassumption. }
  destruct (to_boolean (expires_at u)) eqn:Hexp.
  2: { eapply Hpath; [eapply guard_falsy_expiry; eassumption | reflexivity |].
       econstructor; eassumption. }
  destruct (number_le (clock w / 1000) (expires_at u)) eqn:Hle.
  { eapply Hpath; [eapply guard_valid; eassumption | |].
    - cbn. now rewrite <- app_assoc.
    - econstructor; eassumption. }
  destruct (to_boolean (refresh_token u)) eqn:Hrt.
  2: { eapply Hpath; [eapply guard_no_refresh_token; eassumption | |].
       - cbn. now rewrite <- app_assoc.
       - econstructor; eassumption. }
  pose proof (guard_refresh m req w l u Hen Hreq Hu Hexp Hle Hrt) as Hrun.
  destruct (guard_refresh_observed m req w l u Hen Hreq Hu Hexp Hle Hrt)
    as (_ & Hevs & _).
  rewrite (proj1 (getOidcConfig_emit w DateNow)) in Hrun.
  rewrite Hevs, Hrun.
  destruct (fst (getOidcConfig w)) as [config|err] eqn:Hcfg.
  - destruct (refreshTokenGrant (client w) config (refresh_token u))
      as [tokens|err] eqn:Hgrant; cbn [fst snd]; econstructor; eassumption.
  - cbn [fst snd]. econstructor; eassumption.
Qed.

(** Case analysis on the path a run follows. *)
Ltac guard_cases m req w :=
  let P := fresh "P" in
  pose proof (guard_follows_path m req w) as P;
  remember (fst (isAuthenticated m req w)) as r eqn:Hr in *;
  remember (snd (isAuthenticated m req w)) as w' eqn:Hw' in *;
  remember (events_of (isAuthenticated m req) w) as evs eqn:Hevs in *;
  destruct P as
    [ Hoff | Hon Hreq | l Hon Hreq Hl | l u Hon Hreq Hu Hexp
    | l u Hon Hreq Hu Hexp Hle | l u Hon Hreq Hu Hexp Hle Hrt
    | l u err Hon Hreq Hu Hexp Hle Hrt Hcfg
    | l u config err Hon Hreq Hu Hexp Hle Hrt Hcfg Hgrant
    | l u config tokens Hon Hreq Hu Hexp Hle Hrt Hcfg Hgrant ].

Lemma getOidcConfig_frame (w : World) :
  process_env (snd (getOidcConfig w)) = process_env w /\
  clock (snd (getOidcConfig w)) = clock w /\
  strategies (snd (getOidcConfig w)) = strategies w.
Proof.
  rewrite getOidcConfig_run.
  destruct (cached (clock w) (oidc_cache w)); [repeat split|].
  destruct (url_parses w _); repeat split.
Qed.

Lemma no_response_before_attempt (w : World) (tl : list event) :
  existsb is_response (DateNow :: events_of getOidcConfig w ++ tl)
  = existsb is_response tl.
Proof. cbn. rewrite existsb_app, getOidcConfig_quiet; auto. Qed.

(** X1.  With authentication enabled, a request without a session user is
    answered 401 and nothing else happens: the clock is not read and the
    provider is not contacted. *)
Theorem anonymous_request_rejected (m : Globals) (req : Request) (w : World)
    (Hen : AUTH_ENABLED m = true) (Hreq : req_user req = None) :
  fst (isAuthenticated m req w) = Ok tt /\
  events_of (isAuthenticated m req) w = [unauthorized] /\
  heap (snd (isAuthenticated m req w)) = heap w /\
  oidc_cache (snd (isAuthenticated m req w)) = oidc_cache w.
Proof.
  pose proof (guard_anonymous m req w Hen Hreq) as Hrun.
  rewrite (events_of_intro _ w [unauthorized]) by now rewrite Hrun.
  rewrite Hrun. repeat split.
Qed.

Lemma anonymous_request_rejected_witness :
  events_of (isAuthenticated Examples.enabled Examples.anonymous)
    (Examples.world Examples.today_ms empty_user Examples.provider_down)
  = [unauthorized].
Proof.
  apply (anonymous_request_rejected Examples.enabled Examples.anonymous
           (Examples.world Examples.today_ms empty_user Examples.provider_down));
    reflexivity.
Defined.

(** X2.  Whatever the configuration, the session and the provider do, the
    guard answers a request exactly once: it returns normally, the last
    thing it does is either [next()] or the 401 response with the message
    "Unauthorized", and nothing before that is a response.  (The user of the
    request, if any, is an object of the heap.) *)
Theorem guard_answers_once (m : Globals) (req : Request) (w : World)
    (Hwf : forall l, req_user req = Some l -> is_Some (heap w !! l)) :
  fst (isAuthenticated m req w) = Ok tt /\
  exists pre r,
    events_of (isAuthenticated m req) w = pre ++ [r] /\
    (r = Next \/ r = unauthorized) /\
    existsb is_response pre = false.
Proof.
  guard_cases m req w;
    try (destruct (Hwf l Hreq) as [u' Hu']; congruence);
    (split; [reflexivity|]).
  - exists [], Next. auto.
  - exists [], unauthorized. auto.
  - exists [], unauthorized. auto.
  - exists [DateNow], Next. auto.
  - exists [DateNow], unauthorized. auto.
  - exists (DateNow :: events_of getOidcConfig w ++ []), unauthorized.
    rewrite no_response_before_attempt, app_nil_r. auto.
  - exists (DateNow :: events_of getOidcConfig w ++
            [RefreshTokenGrant config (refresh_token u)]), unauthorized.
    rewrite no_response_before_attempt. cbn. rewrite <- app_assoc. auto.
  - exists (DateNow :: events_of getOidcConfig w ++
            [RefreshTokenGrant config (refresh_token u)]), Next.
    rewrite no_response_before_attempt. cbn. rewrite <- app_assoc. auto.
Qed.

Lemma guard_answers_once_witness :
  fst (isAuthenticated Examples.enabled Examples.request
         (Examples.world Examples.today_ms
            (Examples.session_user (Some (Examples.today - 60)) (Some "rt-1"))
            Examples.provider_down)) = Ok tt.
Proof.
  apply (guard_answers_once Examples.enabled Examples.request
           (Examples.world Examples.today_ms
              (Examples.session_user (Some (Examples.today - 60)) (Some "rt-1"))
              Examples.provider_down)).
  intros l [= <-]. eexists. reflexivity.
Defined.

(** X3.  The guard lets a request through only for a session: with
    authentication enabled, a run that calls [next()] has a user on the
    request whose [expires_at] is truthy. *)
Theorem guard_passes_only_sessions (m : Globals) (req : Request) (w : World)
    (Hen : AUTH_ENABLED m = true)
    (Hnext : existsb is_next (events_of (isAuthenticated m req) w) = true) :
  exists l u,
    req_user req = Some l /\ heap w !! l = Some u /\
    to_boolean (expires_at u) = true.
Proof.
  guard_cases m req w; try congruence; try (now exists l, u);
    try discriminate Hnext;
    rewrite no_next_before_attempt in Hnext; discriminate Hnext.
Qed.

Lemma guard_passes_only_sessions_witness :
  exists l u,
    req_user Examples.request = Some l /\
    heap (Examples.world Examples.today_ms
            (Examples.session_user (Some (Examples.today + 3600)) None)
            Examples.provider_down) !! l = Some u /\
    to_boolean (expires_at u) = true.
Proof.
  apply (guard_passes_only_sessions Examples.enabled Examples.request
           (Examples.world Examples.today_ms
              (Examples.session_user (Some (Examples.today + 3600)) None)
              Examples.provider_down));
    reflexivity.
Defined.

(** X4.  What a run of the guard leaves alone.  The environment, the
    clock, the OIDC client and the registered strategies are as before and
    the trace only grows.  Objects other than the user of the request are
    never written, and the user of the request is written only by a run
    that ends with [next()] after a refresh: a run without a refresh call,
    and a run that answers 401, leave the whole heap as it was. *)
Theorem guard_frame (m : Globals) (req : Request) (w : World) :
  let w' := snd (isAuthenticated m req w) in
  let evs := events_of (isAuthenticated m req) w in
  process_env w' = process_env w /\
  clock w' = clock w /\
  client w' = client w /\
  strategies w' = strategies w /\
  trace w' = trace w ++ evs /\
  (forall l', req_user req <> Some l' -> heap w' !! l' = heap w !! l') /\
  (existsb is_refresh evs = false -> heap w' = heap w) /\
  (In unauthorized evs -> heap w' = heap w).
Proof.
  cbv zeta.
  pose proof (getOidcConfig_frame (emit DateNow w)) as (Fenv & Fclock & Fstr).
  pose proof (getOidcConfig_client (emit DateNow w)) as Fclient.
  pose proof (getOidcConfig_heap (emit DateNow w)) as Fheap.
  pose proof (getOidcConfig_trace (emit DateNow w)) as Ftrace.
  rewrite (proj2 (getOidcConfig_emit w DateNow)) in Ftrace.
  assert (Fquiet : forall tl, In unauthorized (DateNow :: events_of getOidcConfig w ++ tl)
                              -> In unauthorized tl).
  { intros tl [H|H]; [discriminate H|]. apply in_app_or in H as [H|H]; [|exact H].
    apply discovery_events_only in H as (i & c & E). discriminate E. }
  guard_cases m req w; cbn; rewrite ?Fenv, ?Fclock, ?Fstr, ?Fclient, ?Fheap, ?Ftrace;
    cbn; rewrite <- ?app_assoc, ?app_nil_r; cbn;
    repeat (split; [reflexivity|]); try (repeat split; reflexivity).
  split; [|split].
  - intros l' Hl'. apply lookup_insert_ne. congruence.
  - rewrite existsb_app. cbn. rewrite orb_true_r. discriminate.
  - intros H. apply Fquiet in H. destruct H as [H|[H|[]]]; discriminate H.
Qed.

(** X5.  Two requests on one session.  After a run of the guard that
    refreshed the session, with an answer whose ID token expires at a
    non-zero time [e'], a later request on the same session, made while
    [now <= e'], is let through with no call to the provider: the guard
    reads the clock and calls [next()]. *)
Theorem refreshed_session_passes_next_time (m : Globals) (req : Request)
    (w : World) (l : loc) (u : User) (e : Z)
    (config : OidcConfig) (tokens : TokenResponse) (c : Claims) (e' later : Z)
    (Hen : AUTH_ENABLED m = true)
    (Hreq : req_user req = Some l)
    (Hu : heap w !! l = Some u)
    (He : expires_at u = Some e)
    (Hnz : e <> 0)
    (Hpast : e < clock w / 1000)
    (Hrt : to_boolean (refresh_token u) = true)
    (Hconfig : fst (getOidcConfig w) = Ok config)
    (Hgrant : refreshTokenGrant (client w) config (refresh_token u) = Ok tokens)
    (Hclaims : tokens_claims tokens = Some c)
    (Hexp : exp c = Some e')
    (Hnz' : e' <> 0)
    (Hlater : later / 1000 <= e') :
  let w' := at_time later (snd (isAuthenticated m req w)) in
  fst (isAuthenticated m req w') = Ok tt /\
  events_of (isAuthenticated m req) w' = [DateNow; Next].
Proof.
  cbv zeta.
  destruct (guard_refresh_observed m req w l u Hen Hreq Hu
              (truthy_expiry u e He Hnz) (past_expiry u e _ He Hpast) Hrt)
    as (_ & _ & Hheap).
  rewrite Hconfig, Hgrant in Hheap.
  set (w1 := snd (isAuthenticated m req w)) in *.
  assert (Hu' : heap (at_time later w1) !! l = Some (updateUserSession u tokens)).
  { cbn. rewrite Hheap. apply lookup_insert_eq. }
  assert (Hnew : expires_at (updateUserSession u tokens) = Some e').
  { cbn. now rewrite Hclaims. }
  pose proof (guard_valid m req (at_time later w1) l _ Hen Hreq Hu'
                (truthy_expiry _ e' Hnew Hnz')) as Hrun.
  rewrite Hnew in Hrun. cbn in Hrun.
  specialize (Hrun (proj2 (Z.leb_le _ _) Hlater)).
  split; [now rewrite Hrun|].
  apply events_of_intro. rewrite Hrun. cbn. now rewrite <- app_assoc.
Qed.

Lemma refreshed_session_passes_next_time_witness :
  events_of (isAuthenticated Examples.enabled Examples.request)
    (at_time (Examples.today_ms + 60000)
       (snd (isAuthenticated Examples.enabled Examples.request
               (Examples.world Examples.today_ms
                  (Examples.session_user (Some (Examples.today - 60)) (Some "rt-1"))
                  (Examples.provider
                     (Examples.answer (Some (Examples.today + 3600)) (Some "rt-2")))))))
  = [DateNow; Next].
Proof.
  refine (proj2
    (refreshed_session_passes_next_time Examples.enabled Examples.request
       (Examples.world Examples.today_ms
          (Examples.session_user (Some (Examples.today - 60)) (Some "rt-1"))
          (Examples.provider
             (Examples.answer (Some (Examples.today + 3600)) (Some "rt-2"))))
       0%nat
       (Examples.session_user (Some (Examples.today - 60)) (Some "rt-1"))
       (Examples.today - 60)
       Examples.config
       (Examples.answer (Some (Examples.today + 3600)) (Some "rt-2"))
       {| sub := "42"; exp := Some (Examples.today + 3600) |}
       (Examples.today + 3600) (Examples.today_ms + 60000)
       eq_refl eq_refl eq_refl eq_refl _ eq_refl eq_refl eq_refl eq_refl
       eq_refl eq_refl _ _));
    vm_compute; discriminate.
Defined.

(** X6.  While the discovery cache holds a configuration that is still in
    use, the refresh of an expired session does not fetch the discovery
    document: the guard reads the clock, calls the exchange with the cached
    configuration and the stored refresh token, and answers; the cache is
    left as it was. *)
Theorem refresh_uses_cached_discovery (m : Globals) (req : Request)
    (w : World) (l : loc) (u : User) (e : Z) (config : OidcConfig)
    (Hen : AUTH_ENABLED m = true)
    (Hreq : req_user req = Some l)
    (Hu : heap w !! l = Some u)
    (He : expires_at u = Some e)
    (Hnz : e <> 0)
    (Hpast : e < clock w / 1000)
    (Hrt : to_boolean (refresh_token u) = true)
    (Hcache : cached (clock w) (oidc_cache w) = Some (Ok config)) :
  events_of (isAuthenticated m req) w =
    [DateNow; RefreshTokenGrant config (refresh_token u);
     match refreshTokenGrant (client w) config (refresh_token u) with
     | Ok _ => Next
     | Throw _ => unauthorized
     end] /\
  oidc_cache (snd (isAuthenticated m req w)) = oidc_cache w.
Proof.
  pose proof (truthy_expiry u e He Hnz) as Hexp.
  pose proof (past_expiry u e _ He Hpast) as Hle.
  destruct (guard_refresh_observed m req w l u Hen Hreq Hu Hexp Hle Hrt)
    as (_ & Hevs & _).
  pose proof (guard_refresh m req w l u Hen Hreq Hu Hexp Hle Hrt) as Hrun.
  rewrite getOidcConfig_events, getOidcConfig_run, Hcache in Hevs.
  rewrite getOidcConfig_run in Hrun. cbn in Hrun. rewrite Hcache in Hrun.
  cbn in Hevs, Hrun. rewrite Hevs, Hrun.
  destruct (refreshTokenGrant (client w) config (refresh_token u));
    split; reflexivity.
Qed.

Lemma refresh_uses_cached_discovery_witness :
  events_of (isAuthenticated Examples.enabled Examples.request)
    (warm (Examples.session_user (Some (Examples.today - 60)) (Some "rt-1"))
          Examples.provider_refusing)
  = [DateNow; RefreshTokenGrant Examples.config (Some "rt-1"); unauthorized].
Proof.
  refine (proj1
    (refresh_uses_cached_discovery Examples.enabled Examples.request
       (warm (Examples.session_user (Some (Examples.today - 60)) (Some "rt-1"))
             Examples.provider_refusing)
       0%nat
       (Examples.session_user (Some (Examples.today - 60)) (Some "rt-1"))
       (Examples.today - 60) Examples.config
       eq_refl eq_refl eq_refl eq_refl _ eq_refl eq_refl eq_refl)).
  vm_compute. discriminate.
Defined.

(* ===================================================================== *)
(** ** Properties of the discovery cache and of the wiring                *)
(* ===================================================================== *)

(** X7.  The first caller pays for the discovery and later callers within
    the hour reuse it: when [getOidcConfig] finds no usable cache entry and
    the fetch succeeds, it makes one [Discovery] call, for the issuer of
    the environment (by default https://replit.com/oidc) and the client
    [REPL_ID]; a call made less than [maxAge] milliseconds later returns the
    same configuration and makes no call at all. *)
Theorem discovery_cached_for_an_hour (w : World) (config : OidcConfig) (later : Z)
    (Hmiss : cached (clock w) (oidc_cache w) = None)
    (Hfetch : fst (getOidcConfig w) = Ok config)
    (Hlater : later < clock w + 3600 * 1000) :
  let w1 := at_time later (snd (getOidcConfig w)) in
  events_of getOidcConfig w
    = [Discovery (default "https://replit.com/oidc" (process_env w !! "ISSUER_URL"))
                 (process_env w !! "REPL_ID")] /\
  getOidcConfig w1 = (Ok config, w1) /\
  events_of getOidcConfig w1 = [].
Proof.
  cbv zeta.
  assert (Hurl : url_parses w (issuer_url (process_env w)) = true).
  { rewrite getOidcConfig_run, Hmiss in Hfetch.
    destruct (url_parses w _); [reflexivity | discriminate Hfetch]. }
  rewrite getOidcConfig_events, Hmiss, Hurl.
  split; [reflexivity|].
  rewrite getOidcConfig_run, Hmiss, Hurl in Hfetch. cbn in Hfetch.
  assert (Hhit : cached later
                   (oidc_cache (at_time later (snd (getOidcConfig w))))
                 = Some (Ok config)).
  { rewrite getOidcConfig_run, Hmiss, Hurl. cbn. rewrite Hfetch.
    unfold maxAge. now rewrite (proj2 (Z.ltb_lt _ _) Hlater). }
  rewrite getOidcConfig_events, (getOidcConfig_run (at_time later _)).
  cbn [clock at_time]. rewrite Hhit. split; reflexivity.
Qed.

Lemma discovery_cached_for_an_hour_witness :
  events_of getOidcConfig
    (at_time (Examples.today_ms + 3599999)
       (snd (getOidcConfig
               (Examples.world Examples.today_ms empty_user
                  (Examples.provider Examples.answer_no_id_token)))))
  = [].
Proof.
  refine (proj2 (proj2
    (discovery_cached_for_an_hour
       (Examples.world Examples.today_ms empty_user
          (Examples.provider Examples.answer_no_id_token))
       Examples.config (Examples.today_ms + 3599999)
       eq_refl eq_refl eq_refl))).
Defined.

(** X8.  After the hour the discovery is run again: a call made more
    than [maxAge] milliseconds after the one that filled the cache, with an
    issuer URL that parses, makes one new [Discovery] call, returns what
    the provider answers then, and stamps the cache with the time of this
    call.  With an issuer URL that does not parse it throws the [TypeError]
    of [new URL] and makes no call. *)
Theorem discovery_refetched_after_an_hour (w : World) (later : Z)
    (Hmiss : cached (clock w) (oidc_cache w) = None)
    (Hlater : clock w + 3600 * 1000 < later) :
  let w1 := at_time later (snd (getOidcConfig w)) in
  let answer :=
    discovery (client w) (issuer_url (process_env w)) (process_env w !! "REPL_ID") in
  (url_parses w (issuer_url (process_env w)) = true ->
     events_of getOidcConfig w1
       = [Discovery (issuer_url (process_env w)) (process_env w !! "REPL_ID")] /\
     fst (getOidcConfig w1) = answer /\
     oidc_cache (snd (getOidcConfig w1)) = Some (later, answer)) /\
  (url_parses w (issuer_url (process_env w)) = false ->
     events_of getOidcConfig w1 = [] /\
     fst (getOidcConfig w1) = Throw "TypeError: Invalid URL").
Proof.
  cbv zeta.
  assert (Hstale : cached later
                     (oidc_cache (at_time later (snd (getOidcConfig w)))) = None).
  { rewrite getOidcConfig_run, Hmiss.
    destruct (url_parses w _); cbn; unfold maxAge;
      now rewrite (proj2 (Z.ltb_ge _ _) (Z.lt_le_incl _ _ Hlater)). }
  rewrite getOidcConfig_events, (getOidcConfig_run (at_time later _)).
  cbn [clock at_time]. rewrite Hstale.
  rewrite getOidcConfig_run, Hmiss.
  split; intros Hurl; rewrite Hurl; cbn; rewrite Hurl; repeat split.
Qed.

Lemma discovery_refetched_after_an_hour_witness :
  events_of getOidcConfig
    (at_time (Examples.today_ms + 3600001)
       (snd (getOidcConfig
               (Examples.world Examples.today_ms empty_user
                  (Examples.provider Examples.answer_no_id_token)))))
  = [Discovery "https://replit.com/oidc" (Some "club-site")].
Proof.
  refine (proj1
    (proj1
       (discovery_refetched_after_an_hour
          (Examples.world Examples.today_ms empty_user
             (Examples.provider Examples.answer_no_id_token))
          (Examples.today_ms + 3600001) eq_refl eq_refl)
       eq_refl)).
Defined.

Lemma getOidcConfig_platform (w : World) :
  url_parses (snd (getOidcConfig w)) = url_parses w /\
  session_store (snd (getOidcConfig w)) = session_store w.
Proof.
  rewrite getOidcConfig_run.
  destruct (cached (clock w) (oidc_cache w)); [repeat split|].
  destruct (url_parses w _); repeat split.
Qed.

(** Registering strategies appends them and touches nothing else. *)
Lemma register_frame (ds : list string) (w : World) :
  strategies (register ds w) = strategies w ++ List.map strategy_for ds /\
  trace (register ds w) = trace w /\
  heap (register ds w) = heap w /\
  url_parses (register ds w) = url_parses w.
Proof.
  revert w. induction ds as [|d r IH]; intros w; cbn.
  - now rewrite app_nil_r.
  - destruct (IH (passport_use (strategy_for d) w)) as (Hs & Ht & Hh & Hp).
    unfold register in *. rewrite Hs, Ht, Hh, Hp. cbn.
    now rewrite <- app_assoc.
Qed.

(** The body of the loop of [setupAuth] over the allowed domains. *)
Local Abbreviation register_body :=
  (fun domain : string =>
     callback <- new_URL (String.append "https://"
                            (String.append domain "/api/callback")) ;;
     modify (passport_use
       {| name := String.append "replitauth:" domain;
          scope := "openid email profile offline_access";
          callbackURL := callback |})).

Lemma register_body_run (d : string) (w : World) :
  register_body d w =
  if url_parses w (callbackURL (strategy_for d))
  then (Ok tt, passport_use (strategy_for d) w)
  else (Throw "TypeError: Invalid URL", w).
Proof.
  unfold new_URL. unfold bind, get, ret, modify, throw.
  cbn [strategy_for callbackURL].
  destruct (url_parses w _); reflexivity.
Qed.

(** The loop registers the domains in order and stops, throwing, at the
    first one whose callback URL does not parse. *)
Lemma register_loop_run (good rest : list string) (w : World) :
  (forall d, In d good -> url_parses w (callbackURL (strategy_for d)) = true) ->
  for_of (good ++ rest) register_body w =
  match rest with
  | [] => (Ok tt, register good w)
  | bad :: _ =>
      if url_parses w (callbackURL (strategy_for bad)) then
        for_of rest register_body (register good w)
      else (Throw "TypeError: Invalid URL", register good w)
  end.
Proof.
  revert w. induction good as [|d r IH]; intros w Hgood.
  - cbn [app register fold_left]. destruct rest as [|bad rest']; [reflexivity|].
    destruct (url_parses w (callbackURL (strategy_for bad))) eqn:E;
      [reflexivity|].
    cbn [for_of]. unfold bind at 1.
    pose proof (register_body_run bad w) as Hstep. cbv beta in Hstep.
    rewrite Hstep, E. reflexivity.
  - cbn [app for_of]. unfold bind at 1.
    pose proof (register_body_run d w) as Hstep. cbv beta in Hstep.
    rewrite Hstep, (Hgood d (or_introl eq_refl)).
    change (register (d :: r) w)
      with (register r (passport_use (strategy_for d) w)).
    rewrite (IH (passport_use (strategy_for d) w)).
    + destruct rest; reflexivity.
    + intros d' Hd'. apply Hgood. now right.
Qed.

Lemma setupAuth_enabled_run (m : Globals) (app : App) (w : World)
    (config : OidcConfig) :
  AUTH_ENABLED m = true ->
  fst (getOidcConfig w) = Ok config ->
  (forall d, In d (allowedDomains m) ->
             url_parses w (callbackURL (strategy_for d)) = true) ->
  exists app' options h1 h2 h3,
    setupAuth m app w
      = (Ok app', register (allowedDomains m) (snd (getOidcConfig w))) /\
    secret options = process_env w !! "SESSION_SECRET" /\
    settings app' = settings app ++ [("trust proxy", 1)] /\
    getSession w = (Ok options, w) /\
    middleware app' =
      middleware app ++ [Session options; PassportInitialize; PassportSession] /\
    routes app' = routes app ++
      [ {| path := "/api/login"; handler := h1 |};
        {| path := "/api/callback"; handler := h2 |};
        {| path := "/api/logout"; handler := h3 |} ] /\
    (forall req w2,
       h1 req w2 = (Ok tt, emit (PassportAuthenticate
                                   (String.append "replitauth:" (hostname req))
                                   false) w2)) /\
    (forall req w2,
       h2 req w2 = (Ok tt, emit (PassportAuthenticate
                                   (String.append "replitauth:" (hostname req))
                                   true) w2)) /\
    (forall req w2,
       h3 req w2 =
       let w3 := emit (BuildEndSessionUrl config) (emit ReqLogout w2) in
       match buildEndSessionUrl (client w2) config (process_env w2 !! "REPL_ID")
               (String.append (protocol req)
                  (String.append "://" (hostname req))) with
       | Ok url => (Ok tt, emit (Redirect url) w3)
       | Throw err => (Ok tt, emit (Uncaught err) w3)
       end).
Proof.
  intros Hon Hc Hurls.
  unfold setupAuth, getSession. unfold bind at 1 2. unfold get, ret.
  rewrite Hon. cbn [negb]. cbv beta iota. unfold bind at 1.
  destruct (getOidcConfig_platform w) as [Hp _].
  destruct (getOidcConfig w) as [[c|e] w1] eqn:E; cbn in Hc; [|discriminate].
  injection Hc as ->. unfold bind at 1. cbn [snd] in Hp.
  pose proof (register_loop_run (allowedDomains m) [] w1) as F.
  rewrite app_nil_r in F. rewrite F by (intros d Hd; rewrite Hp; auto). clear F.
  do 5 eexists. split; [reflexivity|]. cbn.
  rewrite <- !app_assoc.
  repeat split; try reflexivity; intros req w2; cbn;
    unfold bind, modify, get; cbn;
    destruct (buildEndSessionUrl _ _ _ _); reflexivity.
Qed.

Lemma hostname_authenticated_as (su : option loc) (req : Request) :
  hostname (authenticated_as su req) = hostname req /\
  protocol (authenticated_as su req) = protocol req.
Proof. destruct su; split; reflexivity. Qed.

(** X9.  Whenever [setupAuth] returns, that is with authentication
    disabled, or enabled with a discovery that succeeds and allowed domains
    whose callback URLs all parse, the application has gained the
    "trust proxy" setting, the session middleware followed by passport's
    two, and one route for each of /api/login, /api/callback and
    /api/logout, in this order, after what it had: the three endpoints exist
    in both modes. *)
Theorem setupAuth_wires_routes (m : Globals) (app : App) (w : World)
    (Hready : AUTH_ENABLED m = false \/
              (exists config, fst (getOidcConfig w) = Ok config) /\
              (forall d, In d (allowedDomains m) ->
                         url_parses w (callbackURL (strategy_for d)) = true)) :
  exists app',
    fst (setupAuth m app w) = Ok app' /\
    settings app' = settings app ++ [("trust proxy", 1)] /\
    (exists options,
       getSession w = (Ok options, w) /\
       middleware app' =
         middleware app ++ [Session options; PassportInitialize; PassportSession]) /\
    List.map path (routes app') = List.map path (routes app) ++ auth_paths.
Proof.
  destruct (AUTH_ENABLED m) eqn:Hen.
  - destruct Hready as [Hoff | [[config Hc] Hurls]]; [discriminate|].
    destruct (setupAuth_enabled_run m app w config Hen Hc Hurls)
      as (app' & options & h1 & h2 & h3 & Hrun & _ & Hset & Hses & Hmw & Hroutes & _).
    exists app'. rewrite Hrun, Hroutes, List.map_app.
    repeat split; try assumption. now exists options.
  - destruct (setupAuth_disabled_run m app w Hen)
      as (app' & options & Hrun & _ & Hset & Hses & Hmw & Hroutes).
    exists app'. rewrite Hrun, Hroutes, List.map_app.
    repeat split; try assumption. now exists options.
Qed.

Lemma setupAuth_wires_routes_witness :
  exists app',
    fst (setupAuth Examples.disabled Examples.express Examples.unconfigured)
      = Ok app' /\
    List.map path (routes app') = auth_paths.
Proof.
  destruct (setupAuth_wires_routes Examples.disabled Examples.express
              Examples.unconfigured (or_introl eq_refl))
    as (app' & Hrun & _ & _ & Hpaths).
  exists app'. split; assumption.
Defined.

(** X10.  With authentication enabled, a discovery that succeeds and
    allowed domains whose callback URLs all parse, [setupAuth] registers
    with passport exactly one strategy for each allowed domain, in the
    order of [allowedDomains] and after those already registered: the one
    named "replitauth:" followed by the domain, with the callback URL
    https://<domain>/api/callback.  Its only calls are those of the
    discovery, and the heap is unchanged. *)
Theorem setupAuth_registers_strategies (m : Globals) (app : App) (w : World)
    (config : OidcConfig)
    (Hen : AUTH_ENABLED m = true)
    (Hconfig : fst (getOidcConfig w) = Ok config)
    (Hurls : forall d, In d (allowedDomains m) ->
                       url_parses w (callbackURL (strategy_for d)) = true) :
  let w' := snd (setupAuth m app w) in
  strategies w' = strategies w ++ List.map strategy_for (allowedDomains m) /\
  List.map name (List.map strategy_for (allowedDomains m))
    = List.map (String.append "replitauth:") (allowedDomains m) /\
  events_of (setupAuth m app) w = events_of getOidcConfig w /\
  heap w' = heap w.
Proof.
  cbv zeta.
  destruct (setupAuth_enabled_run m app w config Hen Hconfig Hurls)
    as (app' & options & h1 & h2 & h3 & Hrun & _).
  destruct (register_frame (allowedDomains m) (snd (getOidcConfig w)))
    as (Hs & Ht & Hh & _).
  destruct (getOidcConfig_frame w) as (_ & _ & Hstr).
  split; [|split; [|split]].
  - rewrite Hrun. cbn [snd]. now rewrite Hs, Hstr.
  - rewrite List.map_map. reflexivity.
  - apply events_of_intro. rewrite Hrun. cbn [snd].
    rewrite Ht. apply getOidcConfig_trace.
  - rewrite Hrun. cbn [snd]. rewrite Hh. apply getOidcConfig_heap.
Qed.

Lemma setupAuth_registers_strategies_witness :
  List.map name
    (strategies
       (snd (setupAuth Examples.enabled Examples.express
               (Examples.world Examples.today_ms empty_user
                  (Examples.provider Examples.answer_no_id_token)))))
  = ["replitauth:club.example.org"; "replitauth:localhost:5173"].
Proof.
  rewrite (proj1
    (setupAuth_registers_strategies Examples.enabled Examples.express
       (Examples.world Examples.today_ms empty_user
          (Examples.provider Examples.answer_no_id_token))
       Examples.config eq_refl eq_refl (fun _ _ => eq_refl))).
  reflexivity.
Defined.

(** X11.  With authentication enabled, a discovery that fails makes
    [setupAuth] throw the discovery's error: no strategy is registered and
    nothing is called but the discovery. *)
Theorem setupAuth_discovery_failure (m : Globals) (app : App) (w : World)
    (err : string)
    (Hen : AUTH_ENABLED m = true)
    (Hfail : fst (getOidcConfig w) = Throw err) :
  fst (setupAuth m app w) = Throw err /\
  strategies (snd (setupAuth m app w)) = strategies w /\
  events_of (setupAuth m app) w = events_of getOidcConfig w.
Proof.
  assert (Hrun : setupAuth m app w = (Throw err, snd (getOidcConfig w))).
  { unfold setupAuth, getSession. unfold bind at 1 2. unfold get, ret.
    rewrite Hen. cbn [negb]. cbv beta iota. unfold bind at 1.
    destruct (getOidcConfig w) as [[c|e] w1]; cbn in Hfail; [discriminate|].
    now injection Hfail as ->. }
  rewrite (events_of_intro _ w (events_of getOidcConfig w))
    by (rewrite Hrun; apply getOidcConfig_trace).
  rewrite Hrun. repeat split. apply getOidcConfig_frame.
Qed.

Lemma setupAuth_discovery_failure_witness :
  fst (setupAuth Examples.enabled Examples.express
         (Examples.world Examples.today_ms empty_user Examples.provider_down))
  = Throw "ECONNREFUSED".
Proof.
  apply (setupAuth_discovery_failure Examples.enabled Examples.express
           (Examples.world Examples.today_ms empty_user Examples.provider_down)
           "ECONNREFUSED" eq_refl eq_refl).
Defined.

Lemma strategy_name_injective (a b : string) :
  String.append "replitauth:" a = String.append "replitauth:" b -> a = b.
Proof. intros H. cbv in H. congruence. Qed.

(** X12.  With authentication enabled, on the application [setupAuth]
    returns (one that had no middleware and no route on these paths
    before), a request that the session middleware passes on (the session
    secret was set at startup and the session store answers) is handed by
    [GET /api/login] and by [GET /api/callback] to the passport strategy
    named "replitauth:" followed by the host of the request, and the
    handler does nothing else.  That strategy is among those registered
    when the host is an allowed domain; when it is not, [setupAuth] has
    registered no strategy of that name. *)
Theorem login_delegates_to_host_strategy (m : Globals) (app : App) (w : World)
    (config : OidcConfig)
    (Hen : AUTH_ENABLED m = true)
    (Hconfig : fst (getOidcConfig w) = Ok config)
    (Hurls : forall d, In d (allowedDomains m) ->
                       url_parses w (callbackURL (strategy_for d)) = true)
    (Hsecret : to_boolean (process_env w !! "SESSION_SECRET") = true)
    (Hmw : middleware app = [])
    (Hfree : forall r, In r (routes app) -> ~ In (path r) auth_paths) :
  exists app',
    fst (setupAuth m app w) = Ok app' /\
    forall req w2 su,
      session_store w2 req = Ok su ->
      let strategy := String.append "replitauth:" (hostname req) in
      serve_get app' "/api/login" req w2
        = (Ok tt, emit (PassportAuthenticate strategy false) w2) /\
      serve_get app' "/api/callback" req w2
        = (Ok tt, emit (PassportAuthenticate strategy true) w2) /\
      (In (hostname req) (allowedDomains m) ->
         exists s, In s (strategies (snd (setupAuth m app w))) /\
                   name s = strategy) /\
      (~ In (hostname req) (allowedDomains m) ->
         forall s, In s (List.map strategy_for (allowedDomains m)) ->
                   name s <> strategy).
Proof.
  destruct (setupAuth_enabled_run m app w config Hen Hconfig Hurls)
    as (app' & options & h1 & h2 & h3 & Hrun & Hopt & _ & _ & Hmw' & Hroutes
        & H1 & H2 & _).
  rewrite Hmw in Hmw'. cbn in Hmw'. rewrite <- Hopt in Hsecret.
  assert (Hstr : strategies (snd (setupAuth m app w))
                 = strategies w ++ List.map strategy_for (allowedDomains m)).
  { rewrite Hrun. cbn [snd].
    rewrite (proj1 (register_frame _ _)).
    now rewrite (proj2 (proj2 (getOidcConfig_frame w))). }
  exists app'. split; [now rewrite Hrun|]. intros req w2 su Hstore. cbv zeta.
  destruct (hostname_authenticated_as su req) as [Hhost _].
  split; [|split; [|split]].
  - rewrite (serve_registered app' "/api/login" h1 (routes app) _ options
               req w2 su Hmw' Hsecret Hstore Hroutes).
    + now rewrite H1, Hhost.
    + apply auth_path_free; cbn; auto.
  - rewrite (serve_registered app' "/api/callback" h2
               (routes app ++ [{| path := "/api/login"; handler := h1 |}])
               [{| path := "/api/logout"; handler := h3 |}] options
               req w2 su Hmw' Hsecret Hstore).
    + now rewrite H2, Hhost.
    + rewrite Hroutes, <- app_assoc. reflexivity.
    + intros r Hr. apply in_app_or in Hr as [Hr | [<- | []]];
        [revert r Hr; apply auth_path_free; cbn; auto | discriminate].
  - intros Hin. exists (strategy_for (hostname req)). split; [|reflexivity].
    rewrite Hstr. apply in_or_app. right. now apply in_map.
  - intros Hout s Hs E. apply in_map_iff in Hs as (d & <- & Hd).
    apply strategy_name_injective in E. congruence.
Qed.

Lemma login_delegates_to_host_strategy_witness :
  exists app',
    fst (setupAuth Examples.enabled Examples.express
           (live (Examples.provider Examples.answer_no_id_token))) = Ok app' /\
    serve_get app' "/api/login" Examples.anonymous
      (live (Examples.provider Examples.answer_no_id_token))
      = (Ok tt, emit (PassportAuthenticate "replitauth:club.example.org" false)
                  (live (Examples.provider Examples.answer_no_id_token))).
Proof.
  destruct (login_delegates_to_host_strategy Examples.enabled Examples.express
              (live (Examples.provider Examples.answer_no_id_token))
              Examples.config eq_refl eq_refl (fun _ _ => eq_refl)
              eq_refl eq_refl)
    as (app' & Hrun & Hserve).
  - intros r [].
  - exists app'. split; [exact Hrun|].
    apply (Hserve Examples.anonymous
             (live (Examples.provider Examples.answer_no_id_token))
             None eq_refl).
Defined.

(** X13.  With authentication enabled, on the application [setupAuth]
    returns, for a request that the session middleware passes on,
    [GET /api/logout] first logs the request out, then, in the callback of
    the logout, builds the end-session URL from the configuration
    discovered at startup (no new discovery), the [REPL_ID] of the moment
    and the return address <protocol>://<host> of the request, and
    redirects to it.  If the URL cannot be built, the error is thrown in
    that callback, outside the handler: the request has been logged out and
    gets no response. *)
Theorem logout_redirects_to_provider (m : Globals) (app : App) (w : World)
    (config : OidcConfig)
    (Hen : AUTH_ENABLED m = true)
    (Hconfig : fst (getOidcConfig w) = Ok config)
    (Hurls : forall d, In d (allowedDomains m) ->
                       url_parses w (callbackURL (strategy_for d)) = true)
    (Hsecret : to_boolean (process_env w !! "SESSION_SECRET") = true)
    (Hmw : middleware app = [])
    (Hfree : forall r, In r (routes app) -> ~ In (path r) auth_paths) :
  exists app',
    fst (setupAuth m app w) = Ok app' /\
    forall req w2 su,
      session_store w2 req = Ok su ->
      fst (serve_get app' "/api/logout" req w2) = Ok tt /\
      events_of (serve_get app' "/api/logout" req) w2 =
        [ReqLogout; BuildEndSessionUrl config;
         match buildEndSessionUrl (client w2) config
                 (process_env w2 !! "REPL_ID")
                 (String.append (protocol req)
                    (String.append "://" (hostname req))) with
         | Ok url => Redirect url
         | Throw err => Uncaught err
         end].
Proof.
  destruct (setupAuth_enabled_run m app w config Hen Hconfig Hurls)
    as (app' & options & h1 & h2 & h3 & Hrun & Hopt & _ & _ & Hmw' & Hroutes
        & _ & _ & H3).
  rewrite Hmw in Hmw'. cbn in Hmw'. rewrite <- Hopt in Hsecret.
  exists app'. split; [now rewrite Hrun|]. intros req w2 su Hstore.
  destruct (hostname_authenticated_as su req) as [Hhost Hproto].
  assert (Hserve : serve_get app' "/api/logout" req w2
                   = h3 (authenticated_as su req) w2).
  { apply (serve_registered app' "/api/logout" h3
             (routes app ++ [{| path := "/api/login"; handler := h1 |};
                             {| path := "/api/callback"; handler := h2 |}]) []
             options req w2 su Hmw' Hsecret Hstore).
    - rewrite Hroutes, <- app_assoc. reflexivity.
    - intros r Hr. apply in_app_or in Hr as [Hr | [<- | [<- | []]]];
        [revert r Hr; apply auth_path_free; cbn; auto
        | discriminate | discriminate]. }
  specialize (H3 (authenticated_as su req) w2). cbv zeta in H3.
  rewrite Hhost, Hproto in H3.
  destruct (buildEndSessionUrl _ _ _ _) as [url|err];
    (split; [now rewrite Hserve, H3|]);
    apply events_of_intro; rewrite Hserve, H3; cbn;
    now rewrite <- !app_assoc.
Qed.

Lemma logout_redirects_to_provider_witness :
  exists app',
    fst (setupAuth Examples.enabled Examples.express
           (live (Examples.provider Examples.answer_no_id_token))) = Ok app' /\
    events_of (serve_get app' "/api/logout" Examples.request)
      (live Examples.provider_down)
    = [ReqLogout; BuildEndSessionUrl Examples.config;
       Redirect "https://replit.com/oidc/session/end?to=https://club.example.org"].
Proof.
  destruct (logout_redirects_to_provider Examples.enabled Examples.express
              (live (Examples.provider Examples.answer_no_id_token))
              Examples.config eq_refl eq_refl (fun _ _ => eq_refl)
              eq_refl eq_refl)
    as (app' & Hrun & Hserve).
  - intros r [].
  - exists app'. split; [exact Hrun|].
    apply (Hserve Examples.request (live Examples.provider_down) None eq_refl).
Defined.

(** X20.  With authentication enabled and a discovery that succeeds,
    [setupAuth] throws at the first allowed domain whose callback URL
    https://<domain>/api/callback does not parse: it throws the
    [TypeError] of [new URL], and only the strategies of the domains before
    that one have been registered. *)
Theorem setupAuth_invalid_origin (m : Globals) (app : App) (w : World)
    (config : OidcConfig) (good rest : list string) (bad : string)
    (Hen : AUTH_ENABLED m = true)
    (Hconfig : fst (getOidcConfig w) = Ok config)
    (Hsplit : allowedDomains m = good ++ bad :: rest)
    (Hgood : forall d, In d good ->
                       url_parses w (callbackURL (strategy_for d)) = true)
    (Hbad : url_parses w (callbackURL (strategy_for bad)) = false) :
  fst (setupAuth m app w) = Throw "TypeError: Invalid URL" /\
  strategies (snd (setupAuth m app w))
    = strategies w ++ List.map strategy_for good /\
  events_of (setupAuth m app) w = events_of getOidcConfig w.
Proof.
  destruct (getOidcConfig_platform w) as [Hp _].
  destruct (register_frame good (snd (getOidcConfig w))) as (Hs & Ht & _ & _).
  assert (Hrun : setupAuth m app w
                 = (Throw "TypeError: Invalid URL",
                    register good (snd (getOidcConfig w)))).
  { unfold setupAuth, getSession. unfold bind at 1 2. unfold get, ret.
    rewrite Hen. cbn [negb]. cbv beta iota. unfold bind at 1.
    destruct (getOidcConfig w) as [[c|e] w1] eqn:E; cbn in Hconfig;
      [|discriminate].
    unfold bind at 1. cbn [snd] in *. rewrite Hsplit.
    rewrite (register_loop_run good (bad :: rest) w1)
      by (intros d Hd; rewrite Hp; auto).
    now rewrite Hp, Hbad. }
  rewrite (events_of_intro _ w (events_of getOidcConfig w))
    by (rewrite Hrun; cbn [snd]; rewrite Ht; apply getOidcConfig_trace).
  rewrite Hrun. cbn [fst snd]. split; [reflexivity|]. split; [|reflexivity].
  now rewrite Hs, (proj2 (proj2 (getOidcConfig_frame w))).
Qed.

Lemma setupAuth_invalid_origin_witness :
  fst (setupAuth broken_origin Examples.express strict) = Throw "TypeError: Invalid URL" /\
  List.map name (strategies (snd (setupAuth broken_origin Examples.express strict)))
    = ["replitauth:club.example.org"].
Proof.
  destruct (setupAuth_invalid_origin broken_origin Examples.express strict
              Examples.config ["club.example.org"] [] "a b.example"
              eq_refl eq_refl eq_refl)
    as (Hthrow & Hstr & _).
  - intros d [<- | []]. reflexivity.
  - reflexivity.
  - split; [exact Hthrow|]. now rewrite Hstr.
Defined.

(* ===================================================================== *)
(** ** Further properties of the connection provider and of the origins   *)
(* ===================================================================== *)

(** X14.  When the pool cannot hand out a connection, [pingDb] throws the
    error of the acquisition: no query is sent, nothing is released, and no
    client has been checked out. *)
Theorem pingDb_unreachable (p : Db.Pool) (err : string)
    (Hdown : Db.acquire p = Throw err) :
  fst (Db.pingDb p) = Throw err /\
  Db.log (snd (Db.pingDb p)) = Db.log p ++ [Db.ConnectFailed] /\
  Db.checked_out (snd (Db.pingDb p)) = Db.checked_out p /\
  Db.next_client (snd (Db.pingDb p)) = Db.next_client p.
Proof.
  unfold Db.pingDb, Db.pool_connect, bind, get. rewrite Hdown. cbn. auto.
Qed.

Lemma pingDb_unreachable_witness :
  fst (Db.pingDb pool_down) = Throw "ECONNREFUSED".
Proof. apply (pingDb_unreachable pool_down "ECONNREFUSED" eq_refl). Defined.

(** X15.  [pingDb] never answers [false] and never leaks a client: for
    every pool it either returns [true], or throws the error of the
    acquisition or of the query, and the clients checked out afterwards are
    those checked out before. *)
Theorem pingDb_true_or_throws (p : Db.Pool) :
  (fst (Db.pingDb p) = Ok true \/
   exists err, fst (Db.pingDb p) = Throw err /\
               (Db.acquire p = Throw err \/ Db.server p "select 1" = Throw err)) /\
  Db.checked_out (snd (Db.pingDb p)) = Db.checked_out p.
Proof.
  unfold Db.pingDb, Db.pool_connect, bind, get.
  destruct (Db.acquire p) as [[]|err] eqn:Hacq; cbn.
  - unfold try_finally, Db.client_query, Db.client_release, modify, ret, bind,
      get, await. cbn.
    destruct (Db.server p "select 1") as [[]|err] eqn:Hq; cbn;
      rewrite !Nat.eqb_refl; cbn; rewrite ?Nat.eqb_refl;
      (split; [|reflexivity]);
      [left; reflexivity | right; exists err; auto].
  - split; [|reflexivity]. right. exists err. auto.
Qed.

Section Origins.

Implicit Types (s p : string) (c sep : ascii).

Lemma trim_start_head s c r :
  trim_start s = String c r -> is_whitespace c = false.
Proof.
  induction s as [|a t IH]; simpl; [discriminate|].
  destruct (is_whitespace a) eqn:E; [exact IH|]. now intros [= <- _].
Qed.

Lemma trim_end_keeps_head c r :
  is_whitespace c = false -> exists r', trim_end (String c r) = String c r'.
Proof.
  intros H. simpl. rewrite H. destruct (trim_end r); eauto.
Qed.

Lemma trim_head s c r : trim s = String c r -> is_whitespace c = false.
Proof.
  unfold trim. destruct (trim_start s) as [|a t] eqn:E; [discriminate|].
  pose proof (trim_start_head s a t E) as Ha.
  destruct (trim_end_keeps_head a t Ha) as [r' ->]. now intros [= <- _].
Qed.

Lemma trim_end_last s c :
  last (list_ascii_of_string (trim_end s)) = Some c -> is_whitespace c = false.
Proof.
  induction s as [|a t IH]; simpl; [discriminate|].
  destruct (trim_end t) as [|b t'] eqn:E.
  - destruct (is_whitespace a) eqn:Ha; simpl; [discriminate|]. now intros [= <-].
  - exact IH.
Qed.

Lemma trim_start_chars s c :
  In c (list_ascii_of_string (trim_start s)) -> In c (list_ascii_of_string s).
Proof.
  induction s as [|a t IH]; simpl; [tauto|].
  destruct (is_whitespace a); simpl; tauto.
Qed.

Lemma trim_end_chars s c :
  In c (list_ascii_of_string (trim_end s)) -> In c (list_ascii_of_string s).
Proof.
  induction s as [|a t IH]; simpl; [tauto|].
  destruct (trim_end t) as [|b t'] eqn:E.
  - destruct (is_whitespace a); simpl; tauto.
  - simpl in *. tauto.
Qed.

Lemma split_pieces_no_sep sep s p :
  In p (split sep s) -> ~ In sep (list_ascii_of_string p).
Proof.
  revert p. induction s as [|a t IH]; intros p; simpl.
  - intros [<- | []]. simpl. tauto.
  - destruct (Ascii.eqb_spec a sep) as [-> | Hne].
    + intros [<- | Hp]; [simpl; tauto | now apply IH].
    + destruct (split sep t) as [|h r] eqn:E; [now apply split_not_nil in E|].
      intros [<- | Hp].
      * simpl. intros [Heq | Hin]; [congruence|].
        exact (IH h (or_introl eq_refl) Hin).
      * apply IH. now right.
Qed.

Lemma origin_tidy (raw d : string) :
  In d (List.filter to_boolean (List.map trim (split "," raw))) -> tidy d.
Proof.
  intros Hd. apply filter_In in Hd as [Hd Htruthy].
  apply in_map_iff in Hd as (p & <- & Hp). split.
  - intros E. rewrite E in Htruthy. discriminate.
  - intros Hc. apply (split_pieces_no_sep _ _ _ Hp).
    now apply trim_start_chars, trim_end_chars.
  - apply trim_head.
  - apply trim_end_last.
Qed.

End Origins.

(** X16.  Every allowed domain that loading the module computes is fit to
    name a strategy and to build a callback URL: it is not empty, contains
    no comma, and neither starts nor ends with white space. *)
Theorem allowed_domains_tidy (w : World) :
  exists m,
    fst (Auth.load w) = Ok m /\
    forall d, In d (allowedDomains m) -> tidy d.
Proof.
  unfold Auth.load, bind, get.
  set (raw := default "" _). set (flag := _ && _).
  destruct flag; cbn; eexists; (split; [reflexivity|]); cbn;
    apply origin_tidy.
Qed.

(** X17.  [ALLOWED_ORIGINS] hides [REPLIT_DOMAINS] as soon as it is set:
    the raw origins are then its value, and if that value has nothing but
    commas and white space (the empty string included) there is no allowed
    domain and authentication is disabled, whatever [REPLIT_DOMAINS] and
    [REPL_ID] are.  [REPLIT_DOMAINS] is read only when [ALLOWED_ORIGINS] is
    not set. *)
Theorem allowed_origins_hide_replit_domains (w : World) :
  exists m,
    fst (Auth.load w) = Ok m /\
    (forall raw,
       process_env w !! "ALLOWED_ORIGINS" = Some raw ->
       rawDomains m = raw /\
       ((forall c, In c (list_ascii_of_string raw) ->
                   c = ","%char \/ is_whitespace c = true) ->
        allowedDomains m = [] /\ AUTH_ENABLED m = false)) /\
    (process_env w !! "ALLOWED_ORIGINS" = None ->
     rawDomains m = default "" (process_env w !! "REPLIT_DOMAINS")).
Proof.
  unfold Auth.load, bind, get.
  set (raw0 := default "" _).
  set (origins := List.filter to_boolean (List.map trim (split "," raw0))).
  set (flag := _ && _).
  assert (Hraw : forall raw, process_env w !! "ALLOWED_ORIGINS" = Some raw ->
                             raw0 = raw).
  { intros raw H. subst raw0. now rewrite H. }
  assert (Hblank : forall raw, process_env w !! "ALLOWED_ORIGINS" = Some raw ->
            (forall c, In c (list_ascii_of_string raw) ->
                       c = ","%char \/ is_whitespace c = true) ->
            origins = [] /\ flag = false).
  { intros raw H Hall. rewrite <- (Hraw raw H) in Hall.
    assert (Hnil : origins = []).
    { destruct origins as [|d r] eqn:E; [reflexivity|]. exfalso.
      assert (Hne : origins <> []) by (rewrite E; discriminate).
      apply origins_not_nil in Hne as (c & Hin & Hc & Hws).
      destruct (Hall c Hin) as [? | Hw]; congruence. }
    split; [exact Hnil|]. subst flag. fold origins. now rewrite Hnil. }
  assert (Hnone : process_env w !! "ALLOWED_ORIGINS" = None ->
                  raw0 = default "" (process_env w !! "REPLIT_DOMAINS")).
  { intros H. subst raw0. now rewrite H. }
  destruct flag eqn:Hflag; cbn; eexists; (split; [reflexivity|]); cbn;
    (split; [intros raw H; split; [now apply Hraw|]; intros Hall;
             destruct (Hblank raw H Hall) as [-> ?]; split; congruence
            | exact Hnone]).
Qed.

Lemma allowed_origins_hide_replit_domains_witness :
  exists m,
    fst (Auth.load shadowed) = Ok m /\
    allowedDomains m = [] /\ AUTH_ENABLED m = false.
Proof.
  destruct (allowed_origins_hide_replit_domains shadowed)
    as (m & Hrun & Hset & _).
  exists m. split; [exact Hrun|].
  apply (Hset " , " eq_refl).
  intros c [<- | [<- | [<- | []]]]; [right | left | right]; reflexivity.
Defined.

(** X18.  Cutting a string at a separator loses nothing: the pieces
    contain no separator, there is always at least one piece, and joining
    them with the separator gives the string back. *)
Theorem split_join (sep : ascii) (s : string) :
  join sep (split sep s) = s /\
  split sep s <> [] /\
  forall p, In p (split sep s) -> ~ In sep (list_ascii_of_string p).
Proof.
  split; [|split; [apply split_not_nil | apply split_pieces_no_sep]].
  unfold join. induction s as [|a t IH]; cbn; [reflexivity|].
  destruct (Ascii.eqb_spec a sep) as [-> | Hne].
  - destruct (split sep t) as [|h r] eqn:E; [now apply split_not_nil in E|].
    cbn. cbn in IH. now rewrite IH.
  - destruct (split sep t) as [|h r] eqn:E; [now apply split_not_nil in E|].
    cbn in *. destruct r; cbn in *; now rewrite <- IH.
Qed.

(** After a call the cache answers with the outcome of that call. *)
Lemma getOidcConfig_warm (w : World) :
  cached (clock w) (oidc_cache (snd (getOidcConfig w)))
  = Some (fst (getOidcConfig w)).
Proof.
  rewrite getOidcConfig_run.
  destruct (cached (clock w) (oidc_cache w)) as [p|] eqn:E; cbn; [exact E|].
  destruct (url_parses w _); cbn; unfold maxAge;
    now rewrite (proj2 (Z.ltb_lt _ _)) by lia.
Qed.

(** X19.  A refused refresh is tried again by the next request: when the
    exchange fails, the session keeps its refresh token, and a second
    request made at the same time on the same session calls the exchange
    again with that token (there is no back-off between requests), this
    time without a discovery, the configuration being cached. *)
Theorem refused_refresh_is_retried (m : Globals) (req : Request)
    (w : World) (l : loc) (u : User) (e : Z) (config : OidcConfig) (err : string)
    (Hen : AUTH_ENABLED m = true)
    (Hreq : req_user req = Some l)
    (Hu : heap w !! l = Some u)
    (He : expires_at u = Some e)
    (Hnz : e <> 0)
    (Hpast : e < clock w / 1000)
    (Hrt : to_boolean (refresh_token u) = true)
    (Hconfig : fst (getOidcConfig w) = Ok config)
    (Hgrant : refreshTokenGrant (client w) config (refresh_token u) = Throw err) :
  let w' := snd (isAuthenticated m req w) in
  heap w' !! l = Some u /\
  events_of (isAuthenticated m req) w'
    = [DateNow; RefreshTokenGrant config (refresh_token u); unauthorized].
Proof.
  cbv zeta.
  pose proof (truthy_expiry u e He Hnz) as Hexp.
  pose proof (past_expiry u e _ He Hpast) as Hle.
  pose proof (guard_refresh m req w l u Hen Hreq Hu Hexp Hle Hrt) as Hrun.
  pose proof (getOidcConfig_warm (emit DateNow w)) as Hwarm.
  rewrite (proj1 (getOidcConfig_emit w DateNow)), Hconfig in Hrun, Hwarm.
  rewrite Hgrant in Hrun. cbv zeta in Hrun.
  pose proof (getOidcConfig_heap (emit DateNow w)) as Fheap.
  pose proof (getOidcConfig_client (emit DateNow w)) as Fclient.
  destruct (getOidcConfig_frame (emit DateNow w)) as (_ & Fclock & _).
  set (w1 := snd (getOidcConfig (emit DateNow w))) in *.
  rewrite Hrun. cbn [snd].
  set (w2 := emit unauthorized _).
  assert (Hu2 : heap w2 !! l = Some u) by (subst w2; cbn; now rewrite Fheap).
  assert (Hclock : clock w2 = clock w) by (subst w2; cbn; exact Fclock).
  assert (Hclient : client w2 = client w) by (subst w2; cbn; exact Fclient).
  assert (Hcache : cached (clock w2) (oidc_cache w2) = Some (Ok config))
    by (subst w2; cbn; rewrite Fclock; exact Hwarm).
  split; [exact Hu2|].
  assert (Hle2 : number_le (clock w2 / 1000) (expires_at u) = false)
    by now rewrite Hclock.
  destruct (guard_refresh_observed m req w2 l u Hen Hreq Hu2 Hexp Hle2 Hrt)
    as (_ & Hevs & _).
  rewrite Hclient, getOidcConfig_events, getOidcConfig_run, Hcache in Hevs.
  cbn [fst app] in Hevs. now rewrite Hgrant in Hevs.
Qed.

Lemma refused_refresh_is_retried_witness :
  events_of (isAuthenticated Examples.enabled Examples.request)
    (snd (isAuthenticated Examples.enabled Examples.request
            (Examples.world Examples.today_ms
               (Examples.session_user (Some (Examples.today - 60)) (Some "rt-1"))
               Examples.provider_refusing)))
  = [DateNow; RefreshTokenGrant Examples.config (Some "rt-1"); unauthorized].
Proof.
  refine (proj2
    (refused_refresh_is_retried Examples.enabled Examples.request
       (Examples.world Examples.today_ms
          (Examples.session_user (Some (Examples.today - 60)) (Some "rt-1"))
          Examples.provider_refusing)
       0%nat
       (Examples.session_user (Some (Examples.today - 60)) (Some "rt-1"))
       (Examples.today - 60) Examples.config "invalid_grant"
       eq_refl eq_refl eq_refl eq_refl _ eq_refl eq_refl eq_refl eq_refl)).
  vm_compute. discriminate.
Defined.
